(** * SimpleCV GSoC demo: motion detection strategies and the ROI dispatcher

    A shallow embedding of [examples/GSoC Demo/AngleFromMotion.py]
    (classes [MotionDetector], [MotionDetectorByBlobs],
    [MotionDetectorByMatrix], [MotionDetectorByMeanColor],
    [MotionDetectorByMockup], [ROI] and [ROIHandler]) and the properties
    C1..C10 of its specification.

    - Python integers are [Z]; Python floats are binary64 ([PrimFloat]).
    - A method of [ROIHandler] is a computation over the handler ([self]),
      the lines it prints and the callbacks it calls, and it may raise.
    - [ROIDict] is a Python dict keyed by [ROI] instances, which hash and
      compare by identity: a [gmap] whose keys carry the identity. *)

From Stdlib Require Import ZArith PrimFloat Uint63 FloatOps FloatAxioms SpecFloat.
From stdpp Require Import gmap list strings.

Set Default Proof Using "Type".
Local Open Scope Z_scope.

(** ** Exceptions and outcomes *)

Inductive exn : Type :=
| IndexError
| ZeroDivisionError
| KeyError
| Exception (msg : string).

Inductive result (A : Type) : Type :=
| Ok (a : A)
| Raise (e : exn).
Arguments Ok {A} a.
Arguments Raise {A} e.

#[export] Instance result_ret : MRet result := fun A a => Ok a.
#[export] Instance result_bind : MBind result := fun A B k m =>
  match m with
  | Ok a => k a
  | Raise e => Raise e
  end.

(** ** Python numbers *)

(** [float(n)] for a count [n] (a list length or a loop counter, below
    [2^63] in CPython): the nearest binary64 value. *)
Definition float_of_int (n : Z) : float := PrimFloat.of_uint63 (Uint63.of_Z n).

(** [a / b] on floats: Python raises where IEEE 754 would give inf or nan. *)
Definition float_div (a b : float) : result float :=
  if PrimFloat.eqb b 0%float then Raise ZeroDivisionError else Ok (PrimFloat.div a b).

(** [a[i]] on a one-dimensional numpy array: a negative index counts from
    the end, an index out of range raises. *)
Definition ndarray_getitem (a : list Z) (i : Z) : result Z :=
  let n := Z.of_nat (length a) in
  let j := if i <? 0 then i + n else i in
  if (0 <=? j) && (j <? n) then
    match a !! Z.to_nat j with
    | Some v => Ok v
    | None => Raise IndexError
    end
  else Raise IndexError.

(** ** The image library

    [from SimpleCV import *]: the [Image] class is used through the
    operations below only, which are taken to return. The flattened
    array holds integers; [findBlobs] gives the blobs found, none for
    [None] or an empty set. *)

Class FrameOps (Frame : Type) : Type := {
  Blob : Type;
  (** [image.width], [image.height] *)
  width : Frame → Z;
  height : Frame → Z;
  (** [new_image - old_image] *)
  sub : Frame → Frame → Frame;
  (** [image.getNumpy().flatten()] *)
  getNumpy_flatten : Frame → list Z;
  (** [image.findBlobs(threshval, threshblocksize=...)] *)
  findBlobs : Frame → Z → Z → list Blob;
  (** [image.meanColor()] *)
  meanColor : Frame → float * float * float;
  (** [image.crop(x, y, w, h)] *)
  crop : Frame → Z → Z → Z → Z → Frame;
}.

(** ** Detection strategies *)

Section Strategies.
Context {Frame : Type} `{FrameOps Frame}.

(** [MotionDetectorByBlobs.isMoving] *)
Definition MotionDetectorByBlobs_isMoving (new_image old_image : Frame) : result bool :=
  let difference_image := sub new_image old_image in
  match findBlobs difference_image (-1) 99 with
  | _ :: _ => Ok true
  | [] => Ok false
  end.

(** The [for pixel in flat_matrix] loop of [MotionDetectorByMatrix]:
    [pixel] is the loop's element and is used as an index. *)
Fixpoint count_black (flat_matrix pixels : list Z) (counter : Z) : result Z :=
  match pixels with
  | [] => Ok counter
  | pixel :: rest =>
      v ← ndarray_getitem flat_matrix pixel;
      count_black flat_matrix rest (if v =? 0 then counter + 1 else counter)
  end.

(** [MotionDetectorByMatrix.isMoving] after [flatten()]. *)
Definition matrix_decision (flat_matrix : list Z) : result bool :=
  counter ← count_black flat_matrix flat_matrix 0;
  percent_change ← float_div (float_of_int counter)
                             (float_of_int (Z.of_nat (length flat_matrix)));
  if PrimFloat.ltb 0.5%float percent_change then Ok true else Ok false.

(** [MotionDetectorByMatrix.isMoving] *)
Definition MotionDetectorByMatrix_isMoving (new_image old_image : Frame) : result bool :=
  let difference_image := sub new_image old_image in
  let flat_matrix := getNumpy_flatten difference_image in
  matrix_decision flat_matrix.

(** [threshold = 0.1]: the float of the literal. *)
Definition threshold : float := 0x1.999999999999ap-4%float.

(** [MotionDetectorByMeanColor.isMoving] *)
Definition MotionDetectorByMeanColor_isMoving (new_image old_image : Frame) : result bool :=
  let '(new_red, new_green, new_blue) := meanColor new_image in
  let '(old_red, old_green, old_blue) := meanColor old_image in
  if PrimFloat.leb threshold (PrimFloat.abs (PrimFloat.sub new_red old_red))
     || PrimFloat.leb threshold (PrimFloat.abs (PrimFloat.sub new_green old_green))
     || PrimFloat.leb threshold (PrimFloat.abs (PrimFloat.sub new_blue old_blue))
  then Ok true else Ok false.

(** [MotionDetectorByMockup.isMoving] *)
Definition MotionDetectorByMockup_isMoving (new_image old_image : Frame) : result bool :=
  Ok true.
End Strategies.

(** The strategy classes; an instance has no attributes, so [strategy()]
    is determined by its class. *)
Inductive Strategy : Type :=
| MotionDetectorByBlobs
| MotionDetectorByMatrix
| MotionDetectorByMeanColor
| MotionDetectorByMockup.

(** [concrete_strategy.isMoving(new_image, old_image)], by method lookup. *)
Definition Strategy_isMoving {Frame : Type} `{FrameOps Frame}
    (s : Strategy) (new_image old_image : Frame) : result bool :=
  match s with
  | MotionDetectorByBlobs => MotionDetectorByBlobs_isMoving new_image old_image
  | MotionDetectorByMatrix => MotionDetectorByMatrix_isMoving new_image old_image
  | MotionDetectorByMeanColor => MotionDetectorByMeanColor_isMoving new_image old_image
  | MotionDetectorByMockup => MotionDetectorByMockup_isMoving new_image old_image
  end.

(** ** MotionDetector *)

Module MotionDetector.
Record t : Type := Build { concrete_strategy : option Strategy }.

(** [__init__(self, strategy)]: [strategy] is a class, or a false value
    such as [None] (here [None]). *)
Definition init (strategy : option Strategy) : t :=
  let self := {| concrete_strategy := None |} in
  match strategy with
  | Some cls => {| concrete_strategy := Some cls |}
  | None => self
  end.

(** [if self.concrete_strategy:] holds for every strategy instance. *)
Definition isMoving {Frame : Type} `{FrameOps Frame}
    (self : t) (new_image old_image : Frame) : result bool :=
  match concrete_strategy self with
  | Some s => Strategy_isMoving s new_image old_image
  | None => Ok false
  end.
End MotionDetector.

(** ** ROI *)

Module ROI.
(** An instance: its identity ([id(self)]) and its four attributes. The
    class defines no comparison and no hash, so two instances are equal,
    and are the same key of a dict, when they are the same object; no
    code assigns the attributes after [__init__]. *)
Record t : Type := Build { id : positive; x : Z; y : Z; height : Z; width : Z }.

(** [ROI(x, y, width, height)]: a new object, whose identity is not
    that of any live object. [live] is the set of identities in use. *)
Definition init (live : gset positive) (x y width height : Z) : t * gset positive :=
  let a := fresh live in
  ({| id := a; x := x; y := y; height := height; width := width |}, {[a]} ∪ live).

#[global] Instance eq_dec : EqDecision t.
Proof. solve_decision. Defined.

#[global] Instance countable : Countable t :=
  inj_countable'
    (fun r => (id r, x r, y r, height r, width r))
    (fun '(i, a, b, h, w) => Build i a b h w)
    (fun r => match r with Build _ _ _ _ _ => eq_refl end).
End ROI.

(** ** Computations of a method: state, output, exceptions *)

Section Computations.
Context {St Ev : Type}.

Record run (A : Type) : Type := Run { st : St; out : list Ev; res : result A }.
Arguments Run {A} st out res.
Arguments st {A} r.
Arguments out {A} r.
Arguments res {A} r.

Definition M (A : Type) : Type := St → run A.

Definition ret {A : Type} (a : A) : M A := fun s => Run s [] (Ok a).
Definition raise {A : Type} (e : exn) : M A := fun s => Run s [] (Raise e).
Definition bind {A B : Type} (m : M A) (k : A → M B) : M B := fun s =>
  let r := m s in
  match res r with
  | Ok a => let r' := k a (st r) in Run (st r') (out r ++ out r') (res r')
  | Raise e => Run (st r) (out r) (Raise e)
  end.
Definition get : M St := fun s => Run s [] (Ok s).
Definition modify (f : St → St) : M unit := fun s => Run (f s) [] (Ok tt).
Definition emit (e : Ev) : M unit := fun s => Run s [e] (Ok tt).
Definition lift {A : Type} (r : result A) : M A := fun s => Run s [] r.

(** [for x in l: acc = body(acc, x)] *)
Fixpoint foldM {A B : Type} (body : B → A → M B) (acc : B) (l : list A) : M B :=
  match l with
  | [] => ret acc
  | x :: l' => bind (body acc x) (fun acc' => foldM body acc' l')
  end.

(** [for x in l: body(x)] *)
Fixpoint forM_ {A B : Type} (body : A → M B) (l : list A) : M unit :=
  match l with
  | [] => ret tt
  | x :: l' => bind (body x) (fun _ => forM_ body l')
  end.
End Computations.

Arguments run : clear implicits.
Arguments M : clear implicits.
Arguments Run {St Ev A} st out res.
Arguments st {St Ev A} r.
Arguments out {St Ev A} r.
Arguments res {St Ev A} r.

#[export] Instance M_ret {St Ev : Type} : MRet (M St Ev) := fun A a => ret a.
#[export] Instance M_bind {St Ev : Type} : MBind (M St Ev) := fun A B k m => bind m k.

(** ** ROIHandler *)

Module ROIHandler.
(** A function mapped to a region: called with the region and an image,
    it returns a value or raises. *)
Abbreviation Func Frame Value := (ROI.t → Frame → result Value) (only parsing).

Section Handler.
Context {Frame : Type} `{FrameOps Frame} {Value : Type}.
#[local] Abbreviation Func := (Func Frame Value) (only parsing).

(** What a method does besides returning: a printed line, or a call of
    a mapped function with its arguments. *)
Inductive event : Type :=
| Print (line : string)
| Call (func : Func) (region : ROI.t) (image : Frame).

Record t : Type := Build {
  MotionDetector : MotionDetector.t;
  ROIDict : gmap ROI.t Func;
}.

(** [d.keys()], in the dict's own order. *)
Definition keys (d : gmap ROI.t Func) : list ROI.t := (map_to_list d).*1.

Definition init (md_strategy : option Strategy) : t :=
  {| MotionDetector := MotionDetector.init md_strategy; ROIDict := ∅ |}.

(** [self.ROIDict[newROI] = func] *)
Definition MapRegionToFunc (newROI : ROI.t) (func : Func) : M t event unit :=
  modify (fun self =>
    {| MotionDetector := MotionDetector self;
       ROIDict := <[newROI := func]> (ROIDict self) |}).

Definition CheckRegionFits (region : ROI.t) (image : Frame) : bool :=
  let region_total_height := ROI.y region + ROI.height region in
  let region_total_width := ROI.x region + ROI.width region in
  if (region_total_height <=? height image) && (region_total_width <=? width image)
  then true else false.

(** The body of the loop of [getRegionsMoving]. *)
Definition getRegionsMoving_body (new_image old_image : Frame)
    (ROI_with_movement : list ROI.t) (r : ROI.t) : M t event (list ROI.t) :=
  if CheckRegionFits r new_image && CheckRegionFits r old_image then
    let new_subimage := crop new_image (ROI.x r) (ROI.y r) (ROI.width r) (ROI.height r) in
    let old_subimage := crop old_image (ROI.x r) (ROI.y r) (ROI.width r) (ROI.height r) in
    self ← get;
    moving ← lift (MotionDetector.isMoving (MotionDetector self) new_subimage old_subimage);
    if (moving : bool) then mret (ROI_with_movement ++ [r]) else mret ROI_with_movement
  else
    emit (Print "Error: Region out of bounds of Image");;
    mret ROI_with_movement.

Definition getRegionsMoving (new_image old_image : Frame) : M t event (list ROI.t) :=
  self ← get;
  foldM (getRegionsMoving_body new_image old_image) [] (keys (ROIDict self)).

(** [self.ROIDict[region](region, image)] *)
Definition ExecRegionFunc (region : ROI.t) (image : Frame) : M t event Value :=
  self ← get;
  match ROIDict self !! region with
  | Some func => emit (Call func region image);; lift (func region image)
  | None => raise KeyError
  end.

Definition ExecMovingRegionFuncs (new_image old_image : Frame) : M t event unit :=
  moving ← getRegionsMoving new_image old_image;
  forM_ (fun m => ExecRegionFunc m old_image) moving.
End Handler.
Arguments event : clear implicits.
Arguments t : clear implicits.
End ROIHandler.

(** ** A concrete image type *)

(** Modelled from the spec: the image collaborator of its section 6 (the
    [Image] class of the library is not among the sources). An image is a
    grid of 8-bit (r, g, b) samples, stored by columns as [getNumpy()]
    lays it out: [img !! x] is the column at [x], and the sample at row
    [y] is its element [y]. The difference is elementwise and stops at 0,
    the mean colour is the per-channel sum over the number of pixels, and
    the blob search is left to its argument [blobs]. *)
Module Bitmap.
Definition pixel : Type := (Z * Z * Z)%type.
Definition t : Type := list (list pixel).

Definition width (img : t) : Z := Z.of_nat (length img).
Definition height (img : t) : Z :=
  match img with
  | [] => 0
  | col :: _ => Z.of_nat (length col)
  end.

Definition sub_pixel (p q : pixel) : pixel :=
  let '(r1, g1, b1) := p in
  let '(r2, g2, b2) := q in
  (Z.max 0 (r1 - r2), Z.max 0 (g1 - g2), Z.max 0 (b1 - b2)).

Definition sub (a b : t) : t := zip_with (zip_with sub_pixel) a b.

Definition samples (p : pixel) : list Z := let '(r, g, b) := p in [r; g; b].

Definition flatten (img : t) : list Z := concat (map samples (concat img)).

Definition crop (img : t) (x y w h : Z) : t :=
  map (fun col => take (Z.to_nat h) (drop (Z.to_nat y) col))
      (take (Z.to_nat w) (drop (Z.to_nat x) img)).

Definition mean (channel : pixel → Z) (img : t) : float :=
  let pixels := concat img in
  PrimFloat.div (float_of_int (foldr Z.add 0 (map channel pixels)))
                (float_of_int (Z.of_nat (length pixels))).

Definition meanColor (img : t) : float * float * float :=
  (mean (fun '(r, _, _) => r) img,
   mean (fun '(_, g, _) => g) img,
   mean (fun '(_, _, b) => b) img).

Definition ops (blobs : t → Z → Z → list (Z * Z)) : FrameOps t :=
  Build_FrameOps t (Z * Z)%type width height sub flatten blobs meanColor crop.

(** An image of [w] columns and [h] rows, every pixel [p]. *)
Definition uniform (w h : nat) (p : pixel) : t := replicate w (replicate h p).
End Bitmap.

(** The instance used in the examples: a search that finds no blob. *)
#[local] Instance bitmap_ops : FrameOps Bitmap.t := Bitmap.ops (fun _ _ _ => []).

(** ** The decision rules as the specification words them *)

(** MatrixPercentage in the specification's words: count the entries
    equal to 0, [changed_fraction = 1 - zero_count / total_count], motion
    when [changed_fraction > 0.5]. *)
Definition spec_changed_fraction (flat : list Z) : float :=
  let zero_count := Z.of_nat (length (filter (fun v => v = 0) flat)) in
  let total_count := Z.of_nat (length flat) in
  PrimFloat.sub 1%float (PrimFloat.div (float_of_int zero_count) (float_of_int total_count)).

Definition spec_MatrixPercentage (flat : list Z) : bool :=
  PrimFloat.ltb 0.5%float (spec_changed_fraction flat).

(** The absolute differences of the three mean colour channels. *)
Definition channel_deltas {Frame : Type} `{FrameOps Frame} (new_image old_image : Frame) : list float :=
  let '(new_red, new_green, new_blue) := meanColor new_image in
  let '(old_red, old_green, old_blue) := meanColor old_image in
  [PrimFloat.abs (PrimFloat.sub new_red old_red);
   PrimFloat.abs (PrimFloat.sub new_green old_green);
   PrimFloat.abs (PrimFloat.sub new_blue old_blue)].

(** ** Vocabulary of the properties *)

Section Vocabulary.
Context {Frame : Type} `{FrameOps Frame} {Value : Type}.

(** The detector's answer on the two crops of region [r]. *)
Definition verdict (self : ROIHandler.t Frame Value) (new_image old_image : Frame)
    (r : ROI.t) : result bool :=
  MotionDetector.isMoving (ROIHandler.MotionDetector self)
    (crop new_image (ROI.x r) (ROI.y r) (ROI.width r) (ROI.height r))
    (crop old_image (ROI.x r) (ROI.y r) (ROI.width r) (ROI.height r)).

(** The region fits the new frame and the old one. *)
Definition fits_both (new_image old_image : Frame) (r : ROI.t) : bool :=
  ROIHandler.CheckRegionFits r new_image && ROIHandler.CheckRegionFits r old_image.

Definition is_print (e : ROIHandler.event Frame Value) : Prop :=
  match e with
  | ROIHandler.Print _ => True
  | ROIHandler.Call _ _ _ => False
  end.

(** The region fits both frames and the detector answers [True] on it. *)
Definition reports (self : ROIHandler.t Frame Value) (new_image old_image : Frame)
    (r : ROI.t) : bool :=
  fits_both new_image old_image r &&
  match verdict self new_image old_image r with
  | Ok true => true
  | _ => false
  end.

(** The line printed for a region out of bounds. *)
Definition out_of_bounds : ROIHandler.event Frame Value :=
  ROIHandler.Print "Error: Region out of bounds of Image".

(** Calls of [MapRegionToFunc(region, func)], one after the other. *)
Definition MapRegionsToFuncs (l : list (ROI.t * ROIHandler.Func Frame Value)) :
    M (ROIHandler.t Frame Value) (ROIHandler.event Frame Value) unit :=
  forM_ (fun p => ROIHandler.MapRegionToFunc p.1 p.2) l.
End Vocabulary.

(** ** The functions of the demo *)

(** [getRectangleCenter(width, height)]: on integers [/] rounds down. *)
Definition getRectangleCenter (width height : Z) : Z * Z := (width / 2, height / 2).

(** [getAngleFromCenter(region, image)] up to its call of [atan2], which
    it reaches when [region] and [image] are true values: the pair
    [(dy, dx)] it passes. The angle and its printing are left out. *)
Definition getAngleFromCenter_offsets {Frame : Type} `{FrameOps Frame}
    (region : ROI.t) (image : Frame) : Z * Z :=
  let region_center := getRectangleCenter (ROI.width region) (ROI.height region) in
  let image_center := getRectangleCenter (width image) (height image) in
  let '(region_center_x, region_center_y) := region_center in
  let region_center_x := region_center_x + ROI.x region in
  let region_center_y := region_center_y + ROI.y region in
  let '(image_center_x, image_center_y) := image_center in
  let dy := region_center_y - image_center_y in
  let dx := region_center_x - image_center_x in
  (dy, dx).

(** ** Example inputs *)

(** Two pixels, every sample 0, and the same with every sample 1. *)
Definition frame_dark : Bitmap.t := Bitmap.uniform 1 2 (0, 0, 0).
Definition frame_lit : Bitmap.t := Bitmap.uniform 1 2 (1, 1, 1).
(** One pixel, every sample 0, and one with every sample 200. *)
Definition frame_unlit : Bitmap.t := Bitmap.uniform 1 1 (0, 0, 0).
Definition frame_bright : Bitmap.t := Bitmap.uniform 1 1 (200, 200, 200).
(** A 2x2 image of one colour, and a black one. *)
Definition frame_still : Bitmap.t := Bitmap.uniform 2 2 (10, 20, 30).
Definition frame_dark2 : Bitmap.t := Bitmap.uniform 2 2 (0, 0, 0).
(** Ten black pixels, and the same with red = 1 in the first one: the
    mean red is [1.0 / 10.0], the float [0.1]. *)
Definition frame_black10 : Bitmap.t := Bitmap.uniform 10 1 (0, 0, 0).
Definition frame_tenth : Bitmap.t := [(1, 0, 0)] :: replicate 9 [(0, 0, 0)].
(** A 10x10 image. *)
Definition frame10 : Bitmap.t := Bitmap.uniform 10 10 (0, 0, 0).

(** Three regions made one after the other: [region_a] and [region_b]
    have the same attributes, [region_c] does not fit a 2x2 image. *)
Definition alloc_a : ROI.t * gset positive := ROI.init ∅ 0 0 1 1.
Definition alloc_b : ROI.t * gset positive := ROI.init alloc_a.2 0 0 1 1.
Definition alloc_c : ROI.t * gset positive := ROI.init alloc_b.2 1 0 2 2.
Definition region_a : ROI.t := alloc_a.1.
Definition region_b : ROI.t := alloc_b.1.
Definition region_c : ROI.t := alloc_c.1.

Definition report_x : ROIHandler.Func Bitmap.t Z := fun region _ => Ok (ROI.x region).
Definition report_area : ROIHandler.Func Bitmap.t Z :=
  fun region _ => Ok (ROI.width region * ROI.height region).

(** [ROIHandler(md_strategy=None)] *)
Definition handler_none : ROIHandler.t Bitmap.t Z := ROIHandler.init None.

(** [ROIHandler(md_strategy=MotionDetectorByMockup)] with [region_a] and
    [region_c] mapped. *)
Definition handler_mock : ROIHandler.t Bitmap.t Z :=
  st (ROIHandler.MapRegionToFunc region_c report_area
       (st (ROIHandler.MapRegionToFunc region_a report_x
             (ROIHandler.init (Some MotionDetectorByMockup))))).

(** A region of no area, a function that raises, and handlers that use
    them. *)
Definition region_empty : ROI.t := (ROI.init alloc_c.2 0 0 0 0).1.

Definition fail_always : ROIHandler.Func Bitmap.t Z :=
  fun _ _ => Raise (Exception "no angle").

(** [ROIHandler(md_strategy=None)] with [region_a] and [region_c] mapped. *)
Definition handler_none_mapped : ROIHandler.t Bitmap.t Z :=
  st (MapRegionsToFuncs [(region_a, report_x); (region_c, report_area)] handler_none).

(** [ROIHandler(md_strategy=MotionDetectorByMatrix)] with [region_empty]
    mapped. *)
Definition handler_matrix : ROIHandler.t Bitmap.t Z :=
  st (ROIHandler.MapRegionToFunc region_empty report_x
       (ROIHandler.init (Some MotionDetectorByMatrix))).

(** [ROIHandler(md_strategy=MotionDetectorByMeanColor)] with [region_a]
    mapped. *)
Definition handler_meancolor : ROIHandler.t Bitmap.t Z :=
  st (ROIHandler.MapRegionToFunc region_a report_x
       (ROIHandler.init (Some MotionDetectorByMeanColor))).

(** [ROIHandler(md_strategy=MotionDetectorByMockup)] with [region_a]
    mapped to a function that raises and [region_b] to one that returns. *)
Definition handler_failing : ROIHandler.t Bitmap.t Z :=
  st (MapRegionsToFuncs [(region_a, fail_always); (region_b, report_x)]
        (ROIHandler.init (Some MotionDetectorByMockup))).

(** An image of 300 samples, and one of no pixel. *)
Definition frame_grey10 : Bitmap.t := Bitmap.uniform 10 10 (7, 7, 7).
Definition frame_none : Bitmap.t := [].

(** * Properties *)

(** ** MotionDetector and the strategies *)

Section StrategyFacts.
Context {Frame : Type} `{FrameOps Frame}.

(** C7: a detector made with no strategy answers [False] for every pair
    of frames, and one made with a strategy answers what that
    strategy's [isMoving] answers on the same pair. *)
Theorem MotionDetector_isMoving_delegates (new_image old_image : Frame) :
  MotionDetector.isMoving (MotionDetector.init None) new_image old_image = Ok false ∧
  ∀ strategy : Strategy,
    MotionDetector.isMoving (MotionDetector.init (Some strategy)) new_image old_image
    = Strategy_isMoving strategy new_image old_image.
Proof. split; [reflexivity | intros strategy; reflexivity]. Qed.

(** C6, amended: [MotionDetectorByMeanColor.isMoving] returns, and it
    returns [True] exactly when the absolute difference of some channel
    is at least the threshold 0.1 (the comparison is [>=]). *)
Theorem MotionDetectorByMeanColor_isMoving_at_least (new_image old_image : Frame) :
  ∃ b : bool,
    MotionDetectorByMeanColor_isMoving new_image old_image = Ok b ∧
    (b = true ↔
     ∃ d, d ∈ channel_deltas new_image old_image ∧ PrimFloat.leb threshold d = true).
Proof.
  unfold MotionDetectorByMeanColor_isMoving, channel_deltas.
  destruct (meanColor new_image) as [[nr ng] nb].
  destruct (meanColor old_image) as [[pr pg] pb].
  destruct (PrimFloat.leb threshold (PrimFloat.abs (PrimFloat.sub nr pr))) eqn:Er;
    [eexists; split; [reflexivity|]; split; [intros _|reflexivity];
     eexists; split; [apply list_elem_of_here | exact Er] |].
  destruct (PrimFloat.leb threshold (PrimFloat.abs (PrimFloat.sub ng pg))) eqn:Eg;
    [eexists; split; [reflexivity|]; split; [intros _|reflexivity];
     eexists; split; [apply list_elem_of_further, list_elem_of_here | exact Eg] |].
  destruct (PrimFloat.leb threshold (PrimFloat.abs (PrimFloat.sub nb pb))) eqn:Eb;
    [eexists; split; [reflexivity|]; split; [intros _|reflexivity];
     eexists; split; [do 2 apply list_elem_of_further; apply list_elem_of_here | exact Eb] |].
  exists false. split; [reflexivity|]. split; [discriminate|].
  intros (d & Hd & Hle).
  repeat (apply elem_of_cons in Hd as [-> | Hd]; [congruence|]).
  by apply elem_of_nil in Hd.
Qed.

(** Reading the array at an index in range, and past its end. *)
Lemma ndarray_getitem_in_range (a : list Z) (i : Z) :
  0 ≤ i < Z.of_nat (length a) →
  ∃ v, a !! Z.to_nat i = Some v ∧ ndarray_getitem a i = Ok v.
Proof.
  intros Hi. unfold ndarray_getitem.
  destruct (lookup_lt_is_Some_2 a (Z.to_nat i)) as [v Hv]; [lia|].
  exists v. split; [done|].
  rewrite (proj2 (Z.ltb_ge i 0)) by lia. cbv zeta.
  rewrite (proj2 (Z.leb_le 0 i)), (proj2 (Z.ltb_lt i _)) by lia. simpl.
  by rewrite Hv.
Qed.

Lemma ndarray_getitem_past_end (a : list Z) (i : Z) :
  Z.of_nat (length a) ≤ i → ndarray_getitem a i = Raise IndexError.
Proof.
  intros Hi. unfold ndarray_getitem.
  rewrite (proj2 (Z.ltb_ge i 0)) by lia. cbv zeta.
  rewrite (proj2 (Z.ltb_ge i _)) by lia. by rewrite andb_false_r.
Qed.

(** What the loop counts when every element is an index in range: the
    elements [pixel] such that [flat_matrix[pixel]] is 0. *)
Lemma count_black_in_range (flat_matrix pixels : list Z) (counter : Z) :
  Forall (fun pixel => 0 ≤ pixel < Z.of_nat (length flat_matrix)) pixels →
  count_black flat_matrix pixels counter
  = Ok (counter + Z.of_nat (length (filter (fun pixel =>
                                      flat_matrix !! Z.to_nat pixel = Some 0) pixels))).
Proof.
  intros Hrange. revert counter.
  induction Hrange as [|pixel rest Hp _ IH]; intros counter.
  - simpl. f_equal. lia.
  - destruct (ndarray_getitem_in_range flat_matrix pixel Hp) as (v & Hv & Hget).
    simpl. rewrite Hget. simpl. rewrite IH, filter_cons, Hv.
    destruct (decide (Some v = Some 0)) as [[= ->]|Hne].
    + simpl. f_equal. lia.
    + rewrite (proj2 (Z.eqb_neq v 0)) by congruence. f_equal.
Qed.

(** The loop stops at the first element that is past the end. *)
Lemma count_black_past_end (flat_matrix rest : list Z) (pixel counter : Z) :
  Z.of_nat (length flat_matrix) ≤ pixel →
  count_black flat_matrix (pixel :: rest) counter = Raise IndexError.
Proof. intros Hp. simpl. by rewrite ndarray_getitem_past_end. Qed.

(** The counting loop on a difference that is 0 everywhere: every
    element indexes an element that is 0, so every element is counted. *)
Lemma count_black_zeros (n : nat) (pixels : list Z) (counter : Z) :
  Forall (fun v => v = 0) pixels →
  count_black (replicate (S n) 0) pixels counter
  = Ok (counter + Z.of_nat (length pixels)).
Proof.
  intros Hz. revert counter.
  induction Hz as [|v rest -> _ IH]; intros counter; simpl.
  - f_equal. lia.
  - rewrite IH. f_equal. lia.
Qed.
End StrategyFacts.

(** C6, as stated, fails: the mean red differs by exactly 0.1 between
    [frame_tenth] and [frame_black10]; no channel differs by more, and
    [isMoving] returns [True]. *)
Lemma MotionDetectorByMeanColor_isMoving_not_strict :
  ¬ (MotionDetectorByMeanColor_isMoving frame_tenth frame_black10 = Ok true ↔
     ∃ d, d ∈ channel_deltas frame_tenth frame_black10 ∧ PrimFloat.ltb threshold d = true).
Proof.
  intros [Hcode _].
  assert (channel_deltas frame_tenth frame_black10 = [threshold; 0%float; 0%float]) as E
    by (vm_compute; reflexivity).
  destruct Hcode as (d & Hd & Hlt); [vm_compute; reflexivity|].
  rewrite E in Hd.
  repeat (apply elem_of_cons in Hd as [-> | Hd]; [vm_compute in Hlt; discriminate|]).
  by apply elem_of_nil in Hd.
Qed.

(** C1: the code does not follow the changed-fraction rule. On a
    difference with no 0 entry the rule says motion and [isMoving]
    returns [False] (it compares the fraction of 0 entries itself with
    0.5); on a one-pixel difference of 200 the rule says motion and
    [isMoving] raises (it reads [flat_matrix[pixel]], not [pixel]). *)
Theorem MotionDetectorByMatrix_isMoving_not_changed_fraction :
  (getNumpy_flatten (sub frame_lit frame_dark) = [1; 1; 1; 1; 1; 1] ∧
   spec_MatrixPercentage (getNumpy_flatten (sub frame_lit frame_dark)) = true ∧
   MotionDetectorByMatrix_isMoving frame_lit frame_dark = Ok false) ∧
  (getNumpy_flatten (sub frame_bright frame_unlit) = [200; 200; 200] ∧
   spec_MatrixPercentage (getNumpy_flatten (sub frame_bright frame_unlit)) = true ∧
   MotionDetectorByMatrix_isMoving frame_bright frame_unlit = Raise IndexError).
Proof. repeat split; vm_compute; reflexivity. Qed.

(** C2: on a difference that is 0 everywhere and not empty the loop
    counts every entry, so [percent_change] is the whole; on the two
    identical frames [frame_still] the difference is twelve 0 entries and
    [isMoving] returns [True]. *)
Theorem MotionDetectorByMatrix_isMoving_identical_frames :
  (∀ n : nat,
     count_black (replicate (S n) 0) (replicate (S n) 0) 0 = Ok (Z.of_nat (S n))) ∧
  getNumpy_flatten (sub frame_still frame_still) = replicate 12 0 ∧
  MotionDetectorByMatrix_isMoving frame_still frame_still = Ok true.
Proof.
  split; [|split; vm_compute; reflexivity].
  intros n. rewrite count_black_zeros by apply Forall_replicate, eq_refl.
  by rewrite length_replicate.
Qed.

(** ** The strategies on edge inputs *)

Section StrategyEdges.
Context {Frame : Type} `{FrameOps Frame}.

Lemma ndarray_getitem_in_bounds (a : list Z) (i : Z) :
  - Z.of_nat (length a) ≤ i < Z.of_nat (length a) →
  ∃ v, ndarray_getitem a i = Ok v.
Proof.
  intros Hi. unfold ndarray_getitem.
  destruct (i <? 0) eqn:Hneg; [apply Z.ltb_lt in Hneg | apply Z.ltb_ge in Hneg]; cbv zeta.
  - rewrite (proj2 (Z.leb_le 0 _)), (proj2 (Z.ltb_lt _ _)) by lia. simpl.
    destruct (lookup_lt_is_Some_2 a (Z.to_nat (i + Z.of_nat (length a)))) as [v ->]; [lia|].
    by exists v.
  - destruct (ndarray_getitem_in_range a i) as (v & _ & Hv); [lia|].
    exists v. unfold ndarray_getitem in Hv.
    by rewrite (proj2 (Z.ltb_ge i 0)) in Hv by lia.
Qed.

Lemma ndarray_getitem_out_of_bounds (a : list Z) (i : Z) :
  ¬ (- Z.of_nat (length a) ≤ i < Z.of_nat (length a)) →
  ndarray_getitem a i = Raise IndexError.
Proof.
  intros Hi. unfold ndarray_getitem.
  destruct (i <? 0) eqn:Hneg; [apply Z.ltb_lt in Hneg | apply Z.ltb_ge in Hneg]; cbv zeta.
  - by rewrite (proj2 (Z.leb_gt 0 _)) by lia.
  - rewrite (proj2 (Z.ltb_ge i _)) by lia. by rewrite andb_false_r.
Qed.

(** The counting loop returns when every element is a valid index, and
    raises [IndexError] when one is not. *)
Lemma count_black_returns (flat_matrix pixels : list Z) (counter : Z) :
  Forall (fun pixel => - Z.of_nat (length flat_matrix) ≤ pixel
                       < Z.of_nat (length flat_matrix)) pixels →
  ∃ c, count_black flat_matrix pixels counter = Ok c.
Proof.
  intros Hall. revert counter. induction Hall as [|pixel rest Hp _ IH]; intros counter.
  - by exists counter.
  - destruct (ndarray_getitem_in_bounds flat_matrix pixel Hp) as [v Hv].
    simpl. rewrite Hv. simpl. apply IH.
Qed.

Lemma count_black_raises (flat_matrix pixels : list Z) (counter : Z) :
  Exists (fun pixel => ¬ (- Z.of_nat (length flat_matrix) ≤ pixel
                          < Z.of_nat (length flat_matrix))) pixels →
  count_black flat_matrix pixels counter = Raise IndexError.
Proof.
  revert counter. induction pixels as [|pixel rest IH]; intros counter Hex.
  - by apply Exists_nil in Hex.
  - simpl.
    destruct (decide (- Z.of_nat (length flat_matrix) ≤ pixel
                      < Z.of_nat (length flat_matrix))) as [Hp|Hp].
    + destruct (ndarray_getitem_in_bounds flat_matrix pixel Hp) as [v ->]. simpl.
      apply IH. by apply Exists_cons in Hex as [?|?].
    + by rewrite ndarray_getitem_out_of_bounds.
Qed.

Lemma matrix_decision_counted (flat_matrix : list Z) (c : Z) :
  count_black flat_matrix flat_matrix 0 = Ok c →
  matrix_decision flat_matrix ≠ Raise IndexError.
Proof.
  intros Hc. unfold matrix_decision. rewrite Hc. simpl. unfold float_div.
  destruct (PrimFloat.eqb _ _); [done|]. simpl. by destruct (PrimFloat.ltb _ _).
Qed.

Lemma matrix_decision_nil : matrix_decision [] = Raise ZeroDivisionError.
Proof. vm_compute. reflexivity. Qed.

Lemma Matrix_no_sample (new_image old_image : Frame) :
  getNumpy_flatten (sub new_image old_image) = [] →
  MotionDetectorByMatrix_isMoving new_image old_image = Raise ZeroDivisionError.
Proof.
  intros Hflat. unfold MotionDetectorByMatrix_isMoving. cbv zeta.
  rewrite Hflat. apply matrix_decision_nil.
Qed.

(** X1: when the difference of the two frames flattens to no sample at
    all, [MotionDetectorByMatrix.isMoving] raises [ZeroDivisionError]. *)
Theorem MotionDetectorByMatrix_isMoving_no_sample (new_image old_image : Frame) :
  getNumpy_flatten (sub new_image old_image) = [] →
  MotionDetectorByMatrix_isMoving new_image old_image = Raise ZeroDivisionError.
Proof. apply Matrix_no_sample. Qed.

(** X2: [MotionDetectorByMatrix.isMoving] raises [IndexError] exactly
    when some sample of the flattened difference is not a valid index of
    it, that is, is not between minus its length and its length less 1. *)
Theorem MotionDetectorByMatrix_isMoving_IndexError_iff (new_image old_image : Frame) :
  let flat_matrix := getNumpy_flatten (sub new_image old_image) in
  MotionDetectorByMatrix_isMoving new_image old_image = Raise IndexError ↔
  Exists (fun pixel => ¬ (- Z.of_nat (length flat_matrix) ≤ pixel
                          < Z.of_nat (length flat_matrix))) flat_matrix.
Proof.
  intros flat_matrix. unfold MotionDetectorByMatrix_isMoving. cbv zeta.
  fold flat_matrix. split.
  - intros Hraise.
    destruct (decide (Forall (fun pixel => - Z.of_nat (length flat_matrix) ≤ pixel
                                           < Z.of_nat (length flat_matrix)) flat_matrix))
      as [Hall|Hnot].
    + destruct (count_black_returns flat_matrix flat_matrix 0 Hall) as [c Hc].
      by destruct (matrix_decision_counted flat_matrix c Hc).
    + by apply not_Forall_Exists in Hnot; [|apply _].
  - intros Hex. unfold matrix_decision.
    by rewrite count_black_raises.
Qed.

(** X3: on 8-bit samples, at least 256 of them, the loop of
    [MotionDetectorByMatrix.isMoving] returns; it has counted the samples
    [pixel] for which [flat_matrix[pixel]] is 0 (not the samples that are
    0), and [isMoving] does not raise [IndexError]. *)
Theorem MotionDetectorByMatrix_isMoving_8bit (new_image old_image : Frame) :
  let flat_matrix := getNumpy_flatten (sub new_image old_image) in
  Forall (fun pixel => 0 ≤ pixel ≤ 255) flat_matrix →
  (256 ≤ length flat_matrix)%nat →
  count_black flat_matrix flat_matrix 0
  = Ok (Z.of_nat (length (filter (fun pixel => flat_matrix !! Z.to_nat pixel = Some 0)
                                 flat_matrix))) ∧
  MotionDetectorByMatrix_isMoving new_image old_image ≠ Raise IndexError.
Proof.
  intros flat_matrix Hbyte Hlen.
  assert (count_black flat_matrix flat_matrix 0
          = Ok (0 + Z.of_nat (length (filter (fun pixel =>
                                        flat_matrix !! Z.to_nat pixel = Some 0)
                                      flat_matrix)))) as Hc.
  { apply count_black_in_range. eapply Forall_impl; [exact Hbyte|].
    simpl. intros pixel Hp. lia. }
  split; [by rewrite Hc|].
  unfold MotionDetectorByMatrix_isMoving. cbv zeta. fold flat_matrix.
  by eapply matrix_decision_counted.
Qed.

(** The absolute difference of a float and itself is below the
    threshold: it is 0, or not a number. *)
Lemma abs_sub_self_below (x : float) :
  PrimFloat.leb threshold (PrimFloat.abs (PrimFloat.sub x x)) = false.
Proof.
  rewrite leb_spec, abs_spec, sub_spec. unfold SF64sub.
  destruct (Prim2SF x) as [s|s| |s m e]; simpl.
  - destruct s; vm_compute; reflexivity.
  - destruct s; vm_compute; reflexivity.
  - vm_compute; reflexivity.
  - rewrite Z.sub_diag. vm_compute; reflexivity.
Qed.

(** Rounding does the same to a number and to its opposite. *)
Lemma SFabs_binary_round (prec emax : Z) (s : bool) (m : positive) (e : Z) :
  SFabs (binary_round prec emax s m e) = SFabs (binary_round prec emax (negb s) m e).
Proof.
  unfold binary_round. destruct (shl_align _ _ _) as [mz ez].
  unfold binary_round_aux.
  destruct (shr_fexp prec emax (Z.pos mz) ez loc_Exact) as [mrs' e'].
  destruct (shr_fexp prec emax _ e' loc_Exact) as [mrs'' e''].
  destruct (shr_m mrs''); [reflexivity| |reflexivity].
  by destruct (_ <=? _).
Qed.

Lemma SFabs_binary_normalize_opp (prec emax m e : Z) (sz sz' : bool) :
  SFabs (binary_normalize prec emax (- m) e sz) = SFabs (binary_normalize prec emax m e sz').
Proof.
  destruct m; simpl; [reflexivity| |].
  - apply (SFabs_binary_round prec emax true).
  - apply (SFabs_binary_round prec emax false).
Qed.

Lemma SFabs_SFsub_sym (prec emax : Z) (x y : spec_float) :
  SFabs (SFsub prec emax x y) = SFabs (SFsub prec emax y x).
Proof.
  destruct x as [sx|sx| |sx mx ex], y as [sy|sy| |sy my ey]; simpl;
    try reflexivity; try (by destruct sx, sy).
  rewrite Z.min_comm.
  rewrite <- (SFabs_binary_normalize_opp prec emax _ _ false false).
  f_equal. f_equal. lia.
Qed.

Lemma abs_sub_sym (x y : float) :
  PrimFloat.abs (PrimFloat.sub x y) = PrimFloat.abs (PrimFloat.sub y x).
Proof.
  apply Prim2SF_inj. rewrite !abs_spec, !sub_spec. apply SFabs_SFsub_sym.
Qed.

Lemma MeanColor_same_mean (new_image old_image : Frame) :
  meanColor new_image = meanColor old_image →
  MotionDetectorByMeanColor_isMoving new_image old_image = Ok false.
Proof.
  intros Hmean. unfold MotionDetectorByMeanColor_isMoving. rewrite Hmean.
  destruct (meanColor old_image) as [[r g] b].
  by rewrite !abs_sub_self_below.
Qed.

(** X4: two frames of the same mean colour are not moving for
    [MotionDetectorByMeanColor], whatever that colour is. *)
Theorem MotionDetectorByMeanColor_isMoving_same_mean (new_image old_image : Frame) :
  meanColor new_image = meanColor old_image →
  MotionDetectorByMeanColor_isMoving new_image old_image = Ok false.
Proof. apply MeanColor_same_mean. Qed.

(** X5: [MotionDetectorByMeanColor.isMoving] gives the same answer when
    the two frames are exchanged. *)
Theorem MotionDetectorByMeanColor_isMoving_sym (new_image old_image : Frame) :
  MotionDetectorByMeanColor_isMoving new_image old_image
  = MotionDetectorByMeanColor_isMoving old_image new_image.
Proof.
  unfold MotionDetectorByMeanColor_isMoving.
  destruct (meanColor new_image) as [[nr ng] nb].
  destruct (meanColor old_image) as [[pr pg] pb].
  by rewrite (abs_sub_sym nr pr), (abs_sub_sym ng pg), (abs_sub_sym nb pb).
Qed.
End StrategyEdges.

(** ** Objects *)

(** A new region is not a live object, and two regions made one after
    the other differ in identity, whatever their attributes. *)
Lemma ROI_init_fresh (live : gset positive) (x y w h : Z) :
  ROI.id (ROI.init live x y w h).1 ∉ live.
Proof. apply is_fresh. Qed.

Lemma ROI_init_distinct (live : gset positive) (x y w h x' y' w' h' : Z) :
  ROI.id (ROI.init (ROI.init live x y w h).2 x' y' w' h').1
  ≠ ROI.id (ROI.init live x y w h).1.
Proof.
  intros Heq. eapply (ROI_init_fresh (ROI.init live x y w h).2).
  rewrite Heq. simpl. set_solver.
Qed.

(** ** Computations *)

Section ComputationFacts.
Context {St Ev : Type}.
Implicit Types (s : St).

Lemma st_bind {A B : Type} (m : M St Ev A) (k : A → M St Ev B) s :
  st ((m ≫= k) s) =
  match res (m s) with
  | Ok a => st (k a (st (m s)))
  | Raise _ => st (m s)
  end.
Proof. unfold mbind, M_bind, bind. by destruct (res (m s)). Qed.

Lemma out_bind {A B : Type} (m : M St Ev A) (k : A → M St Ev B) s :
  out ((m ≫= k) s) =
  match res (m s) with
  | Ok a => out (m s) ++ out (k a (st (m s)))
  | Raise _ => out (m s)
  end.
Proof. unfold mbind, M_bind, bind. by destruct (res (m s)). Qed.

Lemma res_bind {A B : Type} (m : M St Ev A) (k : A → M St Ev B) s :
  res ((m ≫= k) s) =
  match res (m s) with
  | Ok a => res (k a (st (m s)))
  | Raise e => Raise e
  end.
Proof. unfold mbind, M_bind, bind. by destruct (res (m s)). Qed.

Lemma run_eq {A : Type} (r r' : run St Ev A) :
  st r = st r' → out r = out r' → res r = res r' → r = r'.
Proof. destruct r, r'; simpl; congruence. Qed.

Lemma foldM_cons {A B : Type} (body : B → A → M St Ev B) acc x l :
  foldM body acc (x :: l) = body acc x ≫= (fun acc' => foldM body acc' l).
Proof. reflexivity. Qed.

Lemma forM__cons {A B : Type} (body : A → M St Ev B) x l :
  forM_ body (x :: l) = body x ≫= (fun _ => forM_ body l).
Proof. reflexivity. Qed.

(** A loop whose body leaves the state alone leaves it alone. *)
Lemma foldM_st {A B : Type} (body : B → A → M St Ev B) l :
  (∀ acc x s, st (body acc x s) = s) →
  ∀ acc s, st (foldM body acc l s) = s.
Proof.
  intros Hbody. induction l as [|x l IH]; intros acc s; [reflexivity|].
  rewrite foldM_cons, st_bind, Hbody.
  destruct (res (body acc x s)); [apply IH | reflexivity].
Qed.

Lemma forM__st {A B : Type} (body : A → M St Ev B) l :
  (∀ x s, st (body x s) = s) →
  ∀ s, st (forM_ body l s) = s.
Proof.
  intros Hbody. induction l as [|x l IH]; intros s; [reflexivity|].
  rewrite forM__cons, st_bind, Hbody.
  destruct (res (body x s)); [apply IH | reflexivity].
Qed.

(** What holds of every event of every turn holds of the loop's. *)
Lemma foldM_out {A B : Type} (P : Ev → Prop) (body : B → A → M St Ev B) l :
  (∀ acc x s, Forall P (out (body acc x s))) →
  ∀ acc s, Forall P (out (foldM body acc l s)).
Proof.
  intros Hbody. induction l as [|x l IH]; intros acc s; [constructor|].
  rewrite foldM_cons, out_bind.
  destruct (res (body acc x s)); [apply Forall_app; split|]; auto.
Qed.

Lemma forM__out {A B : Type} (P : St → A → Ev → Prop) (body : A → M St Ev B) l :
  (∀ x s, st (body x s) = s) →
  (∀ x s, Forall (P s x) (out (body x s))) →
  ∀ s, Forall (fun e => ∃ x, x ∈ l ∧ P s x e) (out (forM_ body l s)).
Proof.
  intros Hst Hbody. induction l as [|x l IH]; intros s; [constructor|].
  rewrite forM__cons, out_bind, Hst.
  assert (Forall (fun e => ∃ y, y ∈ x :: l ∧ P s y e) (out (body x s))) as Hx.
  { eapply Forall_impl; [apply Hbody|]. intros e He. exists x. split; [left|done]. }
  destruct (res (body x s)); [apply Forall_app; split|]; auto.
  eapply Forall_impl; [apply IH|]. intros e (y & Hy & He).
  exists y. split; [by right|done].
Qed.
End ComputationFacts.

(** ** ROIHandler *)

Section HandlerFacts.
Context {Frame : Type} `{FrameOps Frame} {Value : Type}.

Abbreviation handler := (ROIHandler.t Frame Value).
Abbreviation Func := (ROIHandler.Func Frame Value).
Abbreviation event := (ROIHandler.event Frame Value).
Abbreviation Print := (@ROIHandler.Print Frame Value).
Abbreviation Call := (@ROIHandler.Call Frame Value).
Abbreviation ROIDict := ROIHandler.ROIDict.
Abbreviation keys := ROIHandler.keys.
Abbreviation CheckRegionFits := ROIHandler.CheckRegionFits.
Abbreviation body := ROIHandler.getRegionsMoving_body.
Abbreviation getRegionsMoving := ROIHandler.getRegionsMoving.
Abbreviation ExecRegionFunc := ROIHandler.ExecRegionFunc.
Abbreviation ExecMovingRegionFuncs := ROIHandler.ExecMovingRegionFuncs.
Abbreviation MapRegionToFunc := ROIHandler.MapRegionToFunc.

Implicit Types (self : handler) (r R : ROI.t) (new_image old_image image : Frame).

(** *** The dict *)

Lemma keys_NoDup (d : gmap ROI.t Func) : NoDup (keys d).
Proof. apply NoDup_fst_map_to_list. Qed.

Lemma elem_of_keys (d : gmap ROI.t Func) r : r ∈ keys d ↔ is_Some (d !! r).
Proof.
  unfold ROIHandler.keys. rewrite list_elem_of_fmap. split.
  - intros ([r' f] & -> & Hin). apply elem_of_map_to_list in Hin. by exists f.
  - intros [f Hf]. exists (r, f). split; [done|]. by apply elem_of_map_to_list.
Qed.

(** *** One turn of the loop of [getRegionsMoving] *)

Lemma body_unfit new_image old_image acc R self :
  fits_both new_image old_image R = false →
  body new_image old_image acc R self
  = Run self [Print "Error: Region out of bounds of Image"] (Ok acc).
Proof.
  unfold fits_both, ROIHandler.getRegionsMoving_body. intros ->. reflexivity.
Qed.

Lemma body_fit new_image old_image acc r self :
  fits_both new_image old_image r = true →
  body new_image old_image acc r self
  = Run self []
      (match verdict self new_image old_image r with
       | Ok true => Ok (acc ++ [r])
       | Ok false => Ok acc
       | Raise e => Raise e
       end).
Proof.
  unfold fits_both, ROIHandler.getRegionsMoving_body, verdict. intros ->.
  apply run_eq.
  - rewrite !st_bind. simpl.
    by destruct (MotionDetector.isMoving _ _ _) as [[]|].
  - rewrite !out_bind. simpl.
    by destruct (MotionDetector.isMoving _ _ _) as [[]|].
  - rewrite !res_bind. simpl.
    by destruct (MotionDetector.isMoving _ _ _) as [[]|].
Qed.

Lemma body_st new_image old_image acc r self :
  st (body new_image old_image acc r self) = self.
Proof.
  destruct (fits_both new_image old_image r) eqn:E.
  - by rewrite body_fit.
  - by rewrite body_unfit.
Qed.

Lemma body_out new_image old_image acc r self :
  Forall is_print (out (body new_image old_image acc r self)).
Proof.
  destruct (fits_both new_image old_image r) eqn:E.
  - rewrite body_fit by done. constructor.
  - rewrite body_unfit by done. by repeat constructor.
Qed.

(** *** The loop *)

(** The regions the loop adds are keys it went through, in their order,
    each fitting both frames and found moving by the detector. *)
Lemma loop_res new_image old_image self ks : ∀ acc l,
  res (foldM (body new_image old_image) acc ks self) = Ok l →
  ∃ l', l = acc ++ l' ∧ l' `sublist_of` ks ∧
        Forall (fun r => fits_both new_image old_image r = true ∧
                         verdict self new_image old_image r = Ok true) l'.
Proof.
  induction ks as [|x ks IH]; intros acc l.
  - simpl. intros [= <-]. exists []. rewrite app_nil_r. by repeat split.
  - rewrite foldM_cons, res_bind.
    destruct (fits_both new_image old_image x) eqn:Efit.
    + rewrite body_fit by done. simpl.
      destruct (verdict self new_image old_image x) as [[]|] eqn:Ev; [| |done].
      * intros (l' & -> & Hsub & Hall)%IH.
        exists (x :: l'). rewrite <- app_assoc. split; [done|].
        split; [by apply sublist_skip | by constructor].
      * intros (l' & -> & Hsub & Hall)%IH.
        exists l'. split; [done|]. split; [by apply sublist_cons | done].
    + rewrite body_unfit by done. simpl.
      intros (l' & -> & Hsub & Hall)%IH.
      exists l'. split; [done|]. split; [by apply sublist_cons | done].
Qed.

(** A key that does not fit changes nothing in the loop's outcome. *)
Lemma loop_skip new_image old_image self R ks :
  fits_both new_image old_image R = false →
  ∀ acc,
    res (foldM (body new_image old_image) acc ks self)
    = res (foldM (body new_image old_image) acc (filter (fun r => r ≠ R) ks) self).
Proof.
  intros HR. induction ks as [|x ks IH]; intros acc; [reflexivity|].
  rewrite filter_cons. destruct (decide (x ≠ R)) as [Hne|Heq].
  - rewrite !foldM_cons, !res_bind, body_st.
    destruct (res (body new_image old_image acc x self)); [apply IH | reflexivity].
  - apply dec_stable in Heq as ->.
    rewrite foldM_cons, res_bind, body_unfit by done. simpl. apply IH.
Qed.

(** With the mock strategy the loop returns the keys that fit. *)
Lemma loop_mock new_image old_image self ks :
  ROIHandler.MotionDetector self = MotionDetector.init (Some MotionDetectorByMockup) →
  ∀ acc,
    res (foldM (body new_image old_image) acc ks self)
    = Ok (acc ++ filter (fun r => fits_both new_image old_image r = true) ks).
Proof.
  intros Hmd. induction ks as [|x ks IH]; intros acc.
  - simpl. by rewrite app_nil_r.
  - rewrite foldM_cons, res_bind, filter_cons.
    destruct (decide (fits_both new_image old_image x = true)) as [Hfit|Hfit].
    + rewrite body_fit by done. unfold verdict. rewrite Hmd. simpl.
      rewrite IH. by rewrite <- app_assoc.
    + apply not_true_is_false in Hfit. rewrite body_unfit by done. simpl. apply IH.
Qed.

Lemma getRegionsMoving_st new_image old_image self :
  st (getRegionsMoving new_image old_image self) = self.
Proof.
  unfold ROIHandler.getRegionsMoving. rewrite st_bind. simpl.
  apply foldM_st. intros. apply body_st.
Qed.

Lemma getRegionsMoving_out new_image old_image self :
  Forall is_print (out (getRegionsMoving new_image old_image self)).
Proof.
  unfold ROIHandler.getRegionsMoving. rewrite out_bind. simpl.
  apply foldM_out. intros. apply body_out.
Qed.

Lemma getRegionsMoving_res new_image old_image self :
  res (getRegionsMoving new_image old_image self)
  = res (foldM (body new_image old_image) [] (keys (ROIDict self)) self).
Proof. unfold ROIHandler.getRegionsMoving. by rewrite res_bind. Qed.

(** The regions returned are distinct mapped regions that fit both
    frames and that the detector found moving. *)
Lemma getRegionsMoving_sound new_image old_image self moving :
  res (getRegionsMoving new_image old_image self) = Ok moving →
  NoDup moving ∧
  Forall (fun r => is_Some (ROIDict self !! r) ∧
                   fits_both new_image old_image r = true ∧
                   verdict self new_image old_image r = Ok true) moving.
Proof.
  rewrite getRegionsMoving_res. intros (l' & -> & Hsub & Hall)%loop_res. simpl.
  split; [eapply sublist_NoDup; [apply keys_NoDup | done]|].
  apply Forall_forall. intros r Hr. split.
  - apply elem_of_keys. by eapply elem_of_sublist.
  - by eapply Forall_forall in Hall.
Qed.

(** *** Calling the mapped functions *)

Lemma ExecRegionFunc_mapped region image self func :
  ROIDict self !! region = Some func →
  ExecRegionFunc region image self
  = Run self [Call func region image] (func region image).
Proof.
  intros Hf. unfold ROIHandler.ExecRegionFunc, mbind, M_bind, bind, get.
  cbn [st out res]. rewrite Hf. cbn. by destruct (func region image).
Qed.

Lemma ExecRegionFunc_unmapped region image self :
  ROIDict self !! region = None →
  ExecRegionFunc region image self = Run self [] (Raise KeyError).
Proof.
  intros Hf. unfold ROIHandler.ExecRegionFunc, mbind, M_bind, bind, get.
  cbn [st out res]. by rewrite Hf.
Qed.

Lemma ExecRegionFunc_st region image self :
  st (ExecRegionFunc region image self) = self.
Proof.
  destruct (ROIDict self !! region) as [func|] eqn:Hf.
  - by rewrite (ExecRegionFunc_mapped _ _ _ func).
  - by rewrite ExecRegionFunc_unmapped.
Qed.

(** Every call made for a region is a call of the function mapped to
    it, on that region and the image given. *)
Lemma ExecRegionFunc_out region image self :
  Forall (fun e => ∃ func, ROIDict self !! region = Some func ∧ e = Call func region image)
         (out (ExecRegionFunc region image self)).
Proof.
  destruct (ROIDict self !! region) as [func|] eqn:Hf.
  - rewrite (ExecRegionFunc_mapped _ _ _ func) by done. simpl.
    repeat constructor. by exists func.
  - rewrite ExecRegionFunc_unmapped by done. constructor.
Qed.




(** Whatever [ExecMovingRegionFuncs] does is a printed line of
    [getRegionsMoving] or a call, on a region that [getRegionsMoving]
    returned and the old frame, of the function mapped to the region. *)
Lemma ExecMovingRegionFuncs_out new_image old_image self :
  Forall (fun e => is_print e ∨
                   ∃ moving m func,
                     res (getRegionsMoving new_image old_image self) = Ok moving ∧
                     m ∈ moving ∧ ROIDict self !! m = Some func ∧
                     e = Call func m old_image)
         (out (ExecMovingRegionFuncs new_image old_image self)).
Proof.
  unfold ROIHandler.ExecMovingRegionFuncs. rewrite out_bind.
  pose proof (getRegionsMoving_out new_image old_image self) as Hprint.
  destruct (res (getRegionsMoving new_image old_image self)) as [moving|e] eqn:Hres.
  - apply Forall_app. split.
    + eapply Forall_impl; [exact Hprint|]. by left.
    + rewrite getRegionsMoving_st.
      eapply Forall_impl;
        [apply (forM__out (fun s m e => ∃ func, ROIDict s !! m = Some func
                                                ∧ e = Call func m old_image))|].
      * intros m s. apply ExecRegionFunc_st.
      * intros m s. apply ExecRegionFunc_out.
      * simpl. intros e (m & Hm & func & Hf & ->). right. by exists moving, m, func.
  - eapply Forall_impl; [exact Hprint|]. by left.
Qed.

(** *** The properties of the dispatcher *)

(** C5: [CheckRegionFits] answers [True] exactly when
    [y + height <= image.height] and [x + width <= image.width]; on an
    image of 10 by 10 a region of 10 by 10 at (0, 0) fits and one at
    (1, 0) does not. *)
Theorem CheckRegionFits_iff (region : ROI.t) (image : Frame) :
  (CheckRegionFits region image = true ↔
   ROI.y region + ROI.height region ≤ height image ∧
   ROI.x region + ROI.width region ≤ width image) ∧
  (width image = 10 → height image = 10 →
   ∀ i j : positive,
     CheckRegionFits {| ROI.id := i; ROI.x := 0; ROI.y := 0;
                        ROI.height := 10; ROI.width := 10 |} image = true ∧
     CheckRegionFits {| ROI.id := j; ROI.x := 1; ROI.y := 0;
                        ROI.height := 10; ROI.width := 10 |} image = false).
Proof.
  split.
  - unfold ROIHandler.CheckRegionFits.
    destruct (ROI.y region + ROI.height region <=? height image) eqn:Eh;
    destruct (ROI.x region + ROI.width region <=? width image) eqn:Ew; simpl;
    rewrite ?Z.leb_le, ?Z.leb_gt in Eh, Ew; split; try done; try lia.
  - intros Hw Hh i j. unfold ROIHandler.CheckRegionFits. simpl.
    rewrite Hw, Hh. split; reflexivity.
Qed.

(** C3: a mapped region that does not fit one of the two frames is not
    among the regions [getRegionsMoving] returns, no function is called
    for it by [ExecMovingRegionFuncs], its turn of the loop prints the
    error and raises nothing, and the outcome is that of the loop over
    the other keys. *)
Theorem unfit_region_is_skipped self (R : ROI.t) (func : Func) new_image old_image :
  ROIDict self !! R = Some func →
  CheckRegionFits R new_image = false ∨ CheckRegionFits R old_image = false →
  (∀ moving,
     res (getRegionsMoving new_image old_image self) = Ok moving → R ∉ moving) ∧
  (∀ g image,
     Call g R image ∉ out (ExecMovingRegionFuncs new_image old_image self)) ∧
  (∀ acc,
     body new_image old_image acc R self
     = Run self [Print "Error: Region out of bounds of Image"] (Ok acc)) ∧
  res (getRegionsMoving new_image old_image self)
  = res (foldM (body new_image old_image) []
           (filter (fun r => r ≠ R) (keys (ROIDict self))) self).
Proof.
  intros _ Hunfit.
  assert (fits_both new_image old_image R = false) as HR.
  { unfold fits_both. destruct Hunfit as [-> | ->]; [done | apply andb_false_r]. }
  assert (∀ moving,
            res (getRegionsMoving new_image old_image self) = Ok moving → R ∉ moving)
    as Hnot.
  { intros moving [_ Hall]%getRegionsMoving_sound Hin.
    eapply Forall_forall in Hall as (_ & Hfit & _); [|done]. congruence. }
  split; [done|]. split; [|split].
  - intros g image Hin.
    pose proof (ExecMovingRegionFuncs_out new_image old_image self) as Hout.
    rewrite Forall_forall in Hout.
    destruct (Hout _ Hin) as [Hp | (moving & m & f & Hres & Hm & _ & Heq)]; [done|].
    injection Heq as _ -> _. by eapply Hnot.
  - intros acc. by apply body_unfit.
  - rewrite getRegionsMoving_res. by apply loop_skip.
Qed.

(** C8: with the mock strategy, every mapped region that fits both
    frames is among the regions [getRegionsMoving] returns. *)
Theorem mock_strategy_reports_fitting_regions self (R : ROI.t) new_image old_image :
  ROIHandler.MotionDetector self = MotionDetector.init (Some MotionDetectorByMockup) →
  is_Some (ROIDict self !! R) →
  CheckRegionFits R new_image = true →
  CheckRegionFits R old_image = true →
  ∃ moving,
    res (getRegionsMoving new_image old_image self) = Ok moving ∧ R ∈ moving.
Proof.
  intros Hmd Hmapped Hnew Hold. eexists. split.
  - rewrite getRegionsMoving_res. by apply loop_mock.
  - simpl. apply list_elem_of_filter. split.
    + unfold fits_both. by rewrite Hnew, Hold.
    + by apply elem_of_keys.
Qed.

(** C9: two regions of different identity and equal attributes, mapped
    one after the other, are two entries of the dict: each has its own
    function, which [ExecRegionFunc] calls, and the dict grows by two
    when neither was mapped before. *)
Theorem distinct_regions_have_distinct_entries
    self (r1 r2 : ROI.t) (func1 func2 : Func) image :
  ROI.id r1 ≠ ROI.id r2 →
  ROI.x r1 = ROI.x r2 ∧ ROI.y r1 = ROI.y r2 ∧
  ROI.width r1 = ROI.width r2 ∧ ROI.height r1 = ROI.height r2 →
  let self' := st (MapRegionToFunc r2 func2 (st (MapRegionToFunc r1 func1 self))) in
  ROIDict self' !! r1 = Some func1 ∧
  ROIDict self' !! r2 = Some func2 ∧
  ExecRegionFunc r1 image self' = Run self' [Call func1 r1 image] (func1 r1 image) ∧
  ExecRegionFunc r2 image self' = Run self' [Call func2 r2 image] (func2 r2 image) ∧
  (ROIDict self !! r1 = None → ROIDict self !! r2 = None →
   size (ROIDict self') = S (S (size (ROIDict self)))).
Proof.
  intros Hid _ self'.
  assert (r1 ≠ r2) as Hne by (intros ->; done).
  assert (ROIDict self' !! r1 = Some func1) as H1.
  { simpl. rewrite lookup_insert_ne by done. apply lookup_insert_eq. }
  assert (ROIDict self' !! r2 = Some func2) as H2.
  { simpl. apply lookup_insert_eq. }
  repeat split; try done.
  - by apply ExecRegionFunc_mapped.
  - by apply ExecRegionFunc_mapped.
  - intros Hn1 Hn2. simpl.
    rewrite map_size_insert_None, map_size_insert_None; [done | done |].
    by rewrite lookup_insert_ne.
Qed.

(** C10: [getRegionsMoving], [ExecMovingRegionFuncs] and
    [ExecRegionFunc] end in the handler they started in, whether they
    return or raise; [MapRegionToFunc] keeps the detector and sets one
    entry of the dict. *)
Theorem dispatch_leaves_handler_unchanged
    self new_image old_image (region newROI : ROI.t) (func : Func) image :
  st (getRegionsMoving new_image old_image self) = self ∧
  st (ExecMovingRegionFuncs new_image old_image self) = self ∧
  st (ExecRegionFunc region image self) = self ∧
  ROIHandler.MotionDetector (st (MapRegionToFunc newROI func self))
  = ROIHandler.MotionDetector self ∧
  ROIDict (st (MapRegionToFunc newROI func self)) = <[newROI := func]> (ROIDict self).
Proof.
  split; [apply getRegionsMoving_st|]. split; [|split; [apply ExecRegionFunc_st | done]].
  unfold ROIHandler.ExecMovingRegionFuncs. rewrite st_bind, getRegionsMoving_st.
  destruct (res (getRegionsMoving new_image old_image self)); [|done].
  apply forM__st. intros. apply ExecRegionFunc_st.
Qed.

(** *** More on the loop of [getRegionsMoving] *)

(** When the detector raises on no key that fits, the loop returns the
    keys that fit and that the detector finds moving, in their order. *)
Lemma loop_reports new_image old_image self ks :
  (∀ r, r ∈ ks → fits_both new_image old_image r = true →
        ∃ b, verdict self new_image old_image r = Ok b) →
  ∀ acc,
    res (foldM (body new_image old_image) acc ks self)
    = Ok (acc ++ filter (fun r => reports self new_image old_image r = true) ks).
Proof.
  induction ks as [|x ks IH]; intros Hok acc.
  - simpl. by rewrite app_nil_r.
  - assert (∀ r, r ∈ ks → fits_both new_image old_image r = true →
                 ∃ b, verdict self new_image old_image r = Ok b) as Hok'.
    { intros r Hr. apply Hok. by right. }
    rewrite foldM_cons, res_bind, filter_cons.
    destruct (fits_both new_image old_image x) eqn:Efit.
    + destruct (Hok x) as [b Hb]; [left | done |].
      rewrite body_fit by done. rewrite Hb. simpl. destruct b.
      * rewrite decide_True by (unfold reports; by rewrite Efit, Hb).
        rewrite IH by done. by rewrite <- app_assoc.
      * rewrite decide_False by (unfold reports; by rewrite Efit, Hb).
        by apply IH.
    + rewrite body_unfit by done. simpl.
      rewrite decide_False by (unfold reports; by rewrite Efit).
      by apply IH.
Qed.

(** When the detector raises on a key that fits, the loop raises what
    the detector raises on such a key. *)
Lemma loop_raise new_image old_image self ks r e :
  r ∈ ks → fits_both new_image old_image r = true →
  verdict self new_image old_image r = Raise e →
  ∀ acc, ∃ r' e',
    r' ∈ ks ∧ fits_both new_image old_image r' = true ∧
    verdict self new_image old_image r' = Raise e' ∧
    res (foldM (body new_image old_image) acc ks self) = Raise e'.
Proof.
  intros Hr Hfit He. induction ks as [|x ks IH]; intros acc.
  - by apply elem_of_nil in Hr.
  - rewrite foldM_cons, res_bind.
    destruct (fits_both new_image old_image x) eqn:Efit.
    + rewrite body_fit by done. simpl.
      destruct (verdict self new_image old_image x) as [b|e0] eqn:Ex.
      * apply elem_of_cons in Hr as [-> | Hr]; [congruence|].
        destruct b.
        -- destruct (IH Hr (acc ++ [x])) as (r' & e' & Hr' & ? & ? & ->).
           exists r', e'. split; [by right | done].
        -- destruct (IH Hr acc) as (r' & e' & Hr' & ? & ? & ->).
           exists r', e'. split; [by right | done].
      * exists x, e0. split; [left | done].
    + rewrite body_unfit by done. simpl.
      apply elem_of_cons in Hr as [-> | Hr]; [congruence|].
      destruct (IH Hr acc) as (r' & e' & Hr' & ? & ? & ->).
      exists r', e'. split; [by right | done].
Qed.

(** When the loop returns, it has printed one line for each key that
    does not fit, and nothing else. *)
Lemma loop_prints new_image old_image self ks : ∀ acc l,
  res (foldM (body new_image old_image) acc ks self) = Ok l →
  out (foldM (body new_image old_image) acc ks self)
  = replicate (length (filter (fun r => fits_both new_image old_image r = false) ks))
              out_of_bounds.
Proof.
  induction ks as [|x ks IH]; intros acc l; [done|].
  rewrite foldM_cons, res_bind, out_bind, filter_cons.
  destruct (fits_both new_image old_image x) eqn:Efit.
  - rewrite body_fit by done. simpl.
    destruct (verdict self new_image old_image x) as [[]|]; [apply IH | apply IH | done].
  - rewrite body_unfit by done. simpl. intros Hres. f_equal. by eapply IH.
Qed.

Lemma loop_no_strategy new_image old_image self ks :
  ROIHandler.MotionDetector self = MotionDetector.init None →
  ∀ acc, res (foldM (body new_image old_image) acc ks self) = Ok acc.
Proof.
  intros Hmd. induction ks as [|x ks IH]; intros acc; [done|].
  rewrite foldM_cons, res_bind.
  destruct (fits_both new_image old_image x) eqn:Efit.
  - rewrite body_fit by done. unfold verdict. rewrite Hmd. simpl. apply IH.
  - rewrite body_unfit by done. simpl. apply IH.
Qed.

Lemma getRegionsMoving_out_eq new_image old_image self :
  out (getRegionsMoving new_image old_image self)
  = out (foldM (body new_image old_image) [] (keys (ROIDict self)) self).
Proof. unfold ROIHandler.getRegionsMoving. by rewrite out_bind. Qed.

(** [ExecMovingRegionFuncs] after [getRegionsMoving]. *)
Lemma ExecMovingRegionFuncs_raise new_image old_image self e :
  res (getRegionsMoving new_image old_image self) = Raise e →
  ExecMovingRegionFuncs new_image old_image self
  = Run self (out (getRegionsMoving new_image old_image self)) (Raise e).
Proof.
  intros Hres. unfold ROIHandler.ExecMovingRegionFuncs, mbind, M_bind, bind.
  by rewrite Hres, getRegionsMoving_st.
Qed.

Lemma ExecMovingRegionFuncs_return new_image old_image self moving calls
    (outcome : result unit) :
  res (getRegionsMoving new_image old_image self) = Ok moving →
  forM_ (fun m => ExecRegionFunc m old_image) moving self = Run self calls outcome →
  ExecMovingRegionFuncs new_image old_image self
  = Run self (out (getRegionsMoving new_image old_image self) ++ calls) outcome.
Proof.
  intros Hres Hcalls. unfold ROIHandler.ExecMovingRegionFuncs, mbind, M_bind, bind.
  by rewrite Hres, getRegionsMoving_st, Hcalls.
Qed.

(** The loop of [ExecMovingRegionFuncs] up to a function that raises. *)
Lemma exec_until image self l1 funcs1 m func e l2 :
  Forall2 (fun m func => ROIDict self !! m = Some func) l1 funcs1 →
  Forall2 (fun m func => ∃ v, func m image = Ok v) l1 funcs1 →
  ROIDict self !! m = Some func →
  func m image = Raise e →
  forM_ (fun m => ExecRegionFunc m image) (l1 ++ m :: l2) self
  = Run self (zip_with (fun m func => Call func m image) l1 funcs1 ++ [Call func m image])
        (Raise e).
Proof.
  intros Hmap. induction Hmap as [|m1 f1 l1 funcs1 Hm1 _ IH]; intros Hret Hm He.
  - simpl. unfold bind. rewrite (ExecRegionFunc_mapped _ _ _ func) by done.
    simpl. by rewrite He.
  - apply Forall2_cons in Hret as [[v Hv] Hret].
    change ((m1 :: l1) ++ m :: l2) with (m1 :: (l1 ++ m :: l2)).
    rewrite forM__cons. unfold mbind, M_bind, bind.
    rewrite (ExecRegionFunc_mapped _ _ _ f1) by done. simpl.
    rewrite Hv, IH by done. reflexivity.
Qed.

(** *** Mapping regions *)

Lemma MapRegionsToFuncs_run l : ∀ self,
  MapRegionsToFuncs l self
  = Run {| ROIHandler.MotionDetector := ROIHandler.MotionDetector self;
           ROIHandler.ROIDict := foldl (fun d p => <[p.1 := p.2]> d) (ROIDict self) l |}
        [] (Ok tt).
Proof.
  induction l as [|p l IH]; intros self.
  - by destruct self.
  - unfold MapRegionsToFuncs in *. rewrite forM__cons.
    unfold mbind, M_bind, bind. simpl. by rewrite IH.
Qed.

Lemma lookup_foldl_insert_notin (l : list (ROI.t * Func)) r : ∀ d : gmap ROI.t Func,
  r ∉ l.*1 → foldl (fun d p => <[p.1 := p.2]> d) d l !! r = d !! r.
Proof.
  induction l as [|p l IH]; intros d Hr; [done|].
  apply not_elem_of_cons in Hr as [Hne Hr]. simpl.
  rewrite IH by done. by apply lookup_insert_ne.
Qed.

Lemma lookup_foldl_insert_last (l1 l2 : list (ROI.t * Func)) r func
    (d : gmap ROI.t Func) :
  r ∉ l2.*1 →
  foldl (fun d p => <[p.1 := p.2]> d) d (l1 ++ (r, func) :: l2) !! r = Some func.
Proof.
  intros Hr. rewrite foldl_app. simpl.
  rewrite lookup_foldl_insert_notin by done. apply lookup_insert_eq.
Qed.


(** *** Further properties of the dispatcher *)

(** X6: after calls of [MapRegionToFunc] in a row, which print nothing
    and keep the detector, a region is mapped to the function of the last
    call made for it, which [ExecRegionFunc] calls; a region for which no
    call was made is mapped as before. *)
Theorem MapRegionToFunc_last_call_wins self (l : list (ROI.t * Func)) :
  let registered := MapRegionsToFuncs l self in
  res registered = Ok tt ∧ out registered = [] ∧
  ROIHandler.MotionDetector (st registered) = ROIHandler.MotionDetector self ∧
  (∀ r, r ∉ l.*1 → ROIDict (st registered) !! r = ROIDict self !! r) ∧
  (∀ l1 r func l2,
     l = l1 ++ (r, func) :: l2 → r ∉ l2.*1 →
     ROIDict (st registered) !! r = Some func ∧
     ∀ image, ExecRegionFunc r image (st registered)
              = Run (st registered) [Call func r image] (func r image)).
Proof.
  intros registered. subst registered. rewrite MapRegionsToFuncs_run. simpl.
  repeat split; try done.
  - intros r Hr. by apply lookup_foldl_insert_notin.
  - subst l. by apply lookup_foldl_insert_last.
  - intros image. apply ExecRegionFunc_mapped. simpl.
    subst l. by apply lookup_foldl_insert_last.
Qed.

(** X7: [ExecRegionFunc] makes no call exactly when the region is not
    mapped, and then it raises [KeyError]. *)
Theorem ExecRegionFunc_KeyError region image self :
  (out (ExecRegionFunc region image self) = [] ↔ ROIDict self !! region = None) ∧
  (ROIDict self !! region = None →
   ExecRegionFunc region image self = Run self [] (Raise KeyError)).
Proof.
  split; [|apply ExecRegionFunc_unmapped].
  destruct (ROIDict self !! region) as [func|] eqn:Hf.
  - by rewrite (ExecRegionFunc_mapped _ _ _ func).
  - by rewrite ExecRegionFunc_unmapped.
Qed.

(** X8: in a handler that was just made, whatever its strategy,
    [getRegionsMoving] returns no region and prints nothing, and
    [ExecMovingRegionFuncs] returns having done nothing. *)
Theorem new_handler_is_idle (md_strategy : option Strategy) new_image old_image :
  let self : handler := ROIHandler.init md_strategy in
  getRegionsMoving new_image old_image self = Run self [] (Ok []) ∧
  ExecMovingRegionFuncs new_image old_image self = Run self [] (Ok tt).
Proof.
  intros self.
  assert (getRegionsMoving new_image old_image self = Run self [] (Ok [])) as Hget.
  { unfold ROIHandler.getRegionsMoving, mbind, M_bind, bind. simpl.
    unfold ROIHandler.keys. by rewrite map_to_list_empty. }
  split; [done|].
  unfold ROIHandler.ExecMovingRegionFuncs, mbind, M_bind, bind. by rewrite Hget.
Qed.

(** X9: in a handler made with no strategy, [getRegionsMoving] returns
    no region, whatever is mapped and whatever the frames are, and
    [ExecMovingRegionFuncs] returns without a call. *)
Theorem no_strategy_reports_nothing self new_image old_image :
  ROIHandler.MotionDetector self = MotionDetector.init None →
  res (getRegionsMoving new_image old_image self) = Ok [] ∧
  ExecMovingRegionFuncs new_image old_image self
  = Run self (out (getRegionsMoving new_image old_image self)) (Ok tt).
Proof.
  intros Hmd.
  assert (res (getRegionsMoving new_image old_image self) = Ok []) as Hres.
  { rewrite getRegionsMoving_res. by apply loop_no_strategy. }
  split; [done|].
  rewrite (ExecMovingRegionFuncs_return _ _ _ [] [] (Ok tt)) by done.
  by rewrite app_nil_r.
Qed.

(** X10: [getRegionsMoving] returns exactly when the detector raises on
    no mapped region that fits both frames; what it returns is then, in
    the order of the keys, the mapped regions that fit both frames and
    that the detector finds moving: all of them and no other. *)
Theorem getRegionsMoving_returns_reported self new_image old_image :
  ((∃ moving, res (getRegionsMoving new_image old_image self) = Ok moving) ↔
   (∀ r, is_Some (ROIDict self !! r) → fits_both new_image old_image r = true →
         ∃ b, verdict self new_image old_image r = Ok b)) ∧
  ∀ moving,
    res (getRegionsMoving new_image old_image self) = Ok moving →
    moving = filter (fun r => reports self new_image old_image r = true)
                    (keys (ROIDict self)) ∧
    ∀ r, r ∈ moving ↔
         is_Some (ROIDict self !! r) ∧ fits_both new_image old_image r = true ∧
         verdict self new_image old_image r = Ok true.
Proof.
  assert (∀ moving,
            res (getRegionsMoving new_image old_image self) = Ok moving →
            ∀ r, is_Some (ROIDict self !! r) → fits_both new_image old_image r = true →
                 ∃ b, verdict self new_image old_image r = Ok b) as Hnone.
  { intros moving Hres r Hmapped%elem_of_keys Hfit.
    destruct (verdict self new_image old_image r) as [b|e] eqn:Hv; [by exists b|].
    destruct (loop_raise new_image old_image self _ r e Hmapped Hfit Hv [])
      as (? & ? & _ & _ & _ & Hraise).
    rewrite <- getRegionsMoving_res in Hraise. congruence. }
  assert ((∀ r, is_Some (ROIDict self !! r) → fits_both new_image old_image r = true →
                ∃ b, verdict self new_image old_image r = Ok b) →
          res (getRegionsMoving new_image old_image self)
          = Ok (filter (fun r => reports self new_image old_image r = true)
                       (keys (ROIDict self)))) as Hall.
  { intros Hok. rewrite getRegionsMoving_res, loop_reports; [done|].
    intros r Hr. apply Hok. by apply elem_of_keys. }
  split.
  - split; [intros [moving Hres]; by eapply Hnone | intros Hok; eexists; by apply Hall].
  - intros moving Hres.
    assert (moving = filter (fun r => reports self new_image old_image r = true)
                            (keys (ROIDict self))) as ->.
    { rewrite Hall in Hres by (by eapply Hnone). by injection Hres. }
    split; [done|]. intros r.
    rewrite list_elem_of_filter, elem_of_keys. unfold reports.
    rewrite andb_true_iff. split.
    + intros [[Hfit Hv] Hmapped]. repeat split; [done | done |].
      by destruct (verdict self new_image old_image r) as [[]|].
    + intros (Hmapped & Hfit & Hv). by rewrite Hv.
Qed.

(** X11: when [getRegionsMoving] returns, it has printed the error line
    once for each mapped region that does not fit both frames, and
    nothing else. *)
Theorem getRegionsMoving_prints_unfit self new_image old_image moving :
  res (getRegionsMoving new_image old_image self) = Ok moving →
  out (getRegionsMoving new_image old_image self)
  = replicate
      (length (filter (fun r => fits_both new_image old_image r = false)
                      (keys (ROIDict self))))
      out_of_bounds.
Proof.
  rewrite getRegionsMoving_res, getRegionsMoving_out_eq. apply loop_prints.
Qed.

(** X12: when the detector raises on a mapped region that fits both
    frames, [getRegionsMoving] raises what the detector raises on such a
    region, and [ExecMovingRegionFuncs] raises the same without a call. *)
Theorem detector_exception_goes_through self new_image old_image (R : ROI.t) e :
  is_Some (ROIDict self !! R) →
  fits_both new_image old_image R = true →
  verdict self new_image old_image R = Raise e →
  ∃ R' e',
    is_Some (ROIDict self !! R') ∧ fits_both new_image old_image R' = true ∧
    verdict self new_image old_image R' = Raise e' ∧
    res (getRegionsMoving new_image old_image self) = Raise e' ∧
    ExecMovingRegionFuncs new_image old_image self
    = Run self (out (getRegionsMoving new_image old_image self)) (Raise e').
Proof.
  intros Hmapped%elem_of_keys Hfit He.
  destruct (loop_raise new_image old_image self _ R e Hmapped Hfit He [])
    as (R' & e' & HR' & Hfit' & He' & Hres).
  rewrite <- getRegionsMoving_res in Hres.
  exists R', e'. repeat split; try done.
  - by apply elem_of_keys.
  - by apply ExecMovingRegionFuncs_raise.
Qed.

(** X13: with [MotionDetectorByMatrix], one mapped region that fits both
    frames and whose crops differ by an image of no sample (a region of
    no area) makes [getRegionsMoving] raise, and [ExecMovingRegionFuncs]
    raise without a call. *)
Theorem empty_region_stops_matrix_dispatch self new_image old_image (R : ROI.t) :
  ROIHandler.MotionDetector self = MotionDetector.init (Some MotionDetectorByMatrix) →
  is_Some (ROIDict self !! R) →
  fits_both new_image old_image R = true →
  getNumpy_flatten
    (sub (crop new_image (ROI.x R) (ROI.y R) (ROI.width R) (ROI.height R))
         (crop old_image (ROI.x R) (ROI.y R) (ROI.width R) (ROI.height R))) = [] →
  ∃ e,
    res (getRegionsMoving new_image old_image self) = Raise e ∧
    ExecMovingRegionFuncs new_image old_image self
    = Run self (out (getRegionsMoving new_image old_image self)) (Raise e).
Proof.
  intros Hmd Hmapped%elem_of_keys Hfit Hflat.
  assert (verdict self new_image old_image R = Raise ZeroDivisionError) as He.
  { unfold verdict. rewrite Hmd. exact (Matrix_no_sample _ _ Hflat). }
  destruct (loop_raise new_image old_image self _ R _ Hmapped Hfit He [])
    as (R' & e' & _ & _ & _ & Hres).
  rewrite <- getRegionsMoving_res in Hres.
  exists e'. split; [done|]. by apply ExecMovingRegionFuncs_raise.
Qed.

(** X14: when the function of a region that [getRegionsMoving] returned
    raises, after the functions of the regions before it returned,
    [ExecMovingRegionFuncs] raises the same exception; its last call is
    that one, and no function is called for the regions after it. *)
Theorem raising_function_stops_dispatch
    self new_image old_image (l1 l2 : list ROI.t) (m : ROI.t) (func : Func)
    (funcs1 : list Func) e :
  res (getRegionsMoving new_image old_image self) = Ok (l1 ++ m :: l2) →
  Forall2 (fun m func => ROIDict self !! m = Some func) l1 funcs1 →
  Forall2 (fun m func => ∃ v, func m old_image = Ok v) l1 funcs1 →
  ROIDict self !! m = Some func →
  func m old_image = Raise e →
  ExecMovingRegionFuncs new_image old_image self
  = Run self
      (out (getRegionsMoving new_image old_image self)
       ++ zip_with (fun m func => Call func m old_image) l1 funcs1
       ++ [Call func m old_image])
      (Raise e) ∧
  ∀ m' g image,
    m' ∈ l2 → Call g m' image ∉ out (ExecMovingRegionFuncs new_image old_image self).
Proof.
  intros Hres Hmap Hret Hm He.
  assert (ExecMovingRegionFuncs new_image old_image self
          = Run self
              (out (getRegionsMoving new_image old_image self)
               ++ zip_with (fun m func => Call func m old_image) l1 funcs1
               ++ [Call func m old_image])
              (Raise e)) as Hexec.
  { eapply ExecMovingRegionFuncs_return; [exact Hres|]. by apply exec_until. }
  split; [done|]. intros m' g image Hm'. rewrite Hexec. simpl.
  destruct (getRegionsMoving_sound _ _ _ _ Hres) as [Hnodup _].
  apply NoDup_app in Hnodup as (_ & Hdisj & [Hnotin _]%NoDup_cons).
  rewrite !elem_of_app. intros [Hin | [Hin | Hin]].
  - pose proof (getRegionsMoving_out new_image old_image self) as Hprint.
    rewrite Forall_forall in Hprint. by apply Hprint in Hin.
  - apply elem_of_lookup_zip_with in Hin as (i & m1 & f1 & [= _ <- _] & Hl1 & _).
    apply (Hdisj m'); [by eapply list_elem_of_lookup_2 | by right].
  - apply list_elem_of_singleton in Hin as [= _ <- _]. done.
Qed.

(** X19: whether it returns or raises, [getRegionsMoving] only prints
    the error line: it prints nothing else and calls no mapped function. *)
Theorem getRegionsMoving_only_prints_errors self new_image old_image :
  Forall (fun e => e = out_of_bounds) (out (getRegionsMoving new_image old_image self)).
Proof.
  rewrite getRegionsMoving_out_eq. apply foldM_out. intros acc x s.
  destruct (fits_both new_image old_image x) eqn:Efit.
  - rewrite body_fit by done. constructor.
  - rewrite body_unfit by done. by repeat constructor.
Qed.

(** X20: [CheckRegionFits] does not look at the origin: a region that
    ends at or before 0 in both directions, so that it lies outside the
    image, fits every image of width and height at least 0. *)
Theorem CheckRegionFits_accepts_region_before_origin (region : ROI.t) image :
  ROI.x region + ROI.width region ≤ 0 →
  ROI.y region + ROI.height region ≤ 0 →
  0 ≤ width image → 0 ≤ height image →
  CheckRegionFits region image = true.
Proof.
  intros Hx Hy Hw Hh. unfold ROIHandler.CheckRegionFits.
  by rewrite (proj2 (Z.leb_le _ _)), (proj2 (Z.leb_le _ _)) by lia.
Qed.

(** X15: a region fits both frames exactly when it fits the smaller of
    the two heights and the smaller of the two widths. *)
Theorem fits_both_iff_smaller_frame new_image old_image (region : ROI.t) :
  fits_both new_image old_image region = true ↔
  ROI.y region + ROI.height region ≤ Z.min (height new_image) (height old_image) ∧
  ROI.x region + ROI.width region ≤ Z.min (width new_image) (width old_image).
Proof.
  unfold fits_both, ROIHandler.CheckRegionFits.
  destruct (ROI.y region + ROI.height region <=? height new_image) eqn:E1;
  destruct (ROI.x region + ROI.width region <=? width new_image) eqn:E2;
  destruct (ROI.y region + ROI.height region <=? height old_image) eqn:E3;
  destruct (ROI.x region + ROI.width region <=? width old_image) eqn:E4;
  simpl; rewrite ?Z.leb_le, ?Z.leb_gt in E1, E2, E3, E4; split; try done; lia.
Qed.

(** X16: with [MotionDetectorByMeanColor], when the new frame and the
    old frame are the same image, [getRegionsMoving] returns no region
    and [ExecMovingRegionFuncs] returns without a call. *)
Theorem meancolor_same_frame_reports_nothing self image :
  ROIHandler.MotionDetector self = MotionDetector.init (Some MotionDetectorByMeanColor) →
  res (getRegionsMoving image image self) = Ok [] ∧
  ExecMovingRegionFuncs image image self
  = Run self (out (getRegionsMoving image image self)) (Ok tt).
Proof.
  intros Hmd.
  assert (∀ r, verdict self image image r = Ok false) as Hv.
  { intros r. unfold verdict. rewrite Hmd.
    exact (MeanColor_same_mean _ _ eq_refl). }
  assert (res (getRegionsMoving image image self) = Ok []) as Hres.
  { rewrite getRegionsMoving_res, loop_reports by (intros r _ _; by exists false).
    simpl. f_equal. induction (keys (ROIDict self)) as [|x ks IH]; [done|].
    rewrite filter_cons, decide_False; [done|].
    unfold reports. rewrite Hv. by rewrite andb_false_r. }
  split; [done|].
  rewrite (ExecMovingRegionFuncs_return _ _ _ [] [] (Ok tt)) by done.
  by rewrite app_nil_r.
Qed.
End HandlerFacts.

(** ** The properties on the example inputs *)

(** [frame10] is 10 by 10: the two regions of C5. *)
Lemma CheckRegionFits_iff_frame10 :
  width frame10 = 10 ∧ height frame10 = 10 ∧
  ROIHandler.CheckRegionFits
    {| ROI.id := 1; ROI.x := 0; ROI.y := 0; ROI.height := 10; ROI.width := 10 |}
    frame10 = true ∧
  ROIHandler.CheckRegionFits
    {| ROI.id := 2; ROI.x := 1; ROI.y := 0; ROI.height := 10; ROI.width := 10 |}
    frame10 = false.
Proof.
  split; [reflexivity|]. split; [reflexivity|].
  apply (proj2 (CheckRegionFits_iff region_a frame10)); reflexivity.
Defined.

(** [region_c] is mapped in [handler_mock] and does not fit a 2x2 frame. *)
Lemma unfit_region_is_skipped_region_c :
  ROIHandler.ROIDict handler_mock !! region_c = Some report_area ∧
  ROIHandler.CheckRegionFits region_c frame_still = false ∧
  (∀ moving,
     res (ROIHandler.getRegionsMoving frame_still frame_still handler_mock) = Ok moving →
     region_c ∉ moving) ∧
  (∀ g image,
     ROIHandler.Call g region_c image
     ∉ out (ROIHandler.ExecMovingRegionFuncs frame_still frame_still handler_mock)) ∧
  (∀ acc,
     ROIHandler.getRegionsMoving_body frame_still frame_still acc region_c handler_mock
     = Run handler_mock [ROIHandler.Print "Error: Region out of bounds of Image"] (Ok acc)) ∧
  res (ROIHandler.getRegionsMoving frame_still frame_still handler_mock)
  = res (foldM (ROIHandler.getRegionsMoving_body frame_still frame_still) []
           (filter (fun r => r ≠ region_c) (ROIHandler.keys (ROIHandler.ROIDict handler_mock)))
           handler_mock).
Proof.
  split; [vm_compute; reflexivity|]. split; [vm_compute; reflexivity|].
  apply (unfit_region_is_skipped handler_mock region_c report_area frame_still frame_still).
  - vm_compute; reflexivity.
  - left. vm_compute; reflexivity.
Defined.


(** [region_a] is mapped in [handler_mock] and fits a 2x2 frame. *)
Lemma mock_strategy_reports_region_a :
  ROIHandler.MotionDetector handler_mock = MotionDetector.init (Some MotionDetectorByMockup) ∧
  ROIHandler.CheckRegionFits region_a frame_still = true ∧
  ∃ moving,
    res (ROIHandler.getRegionsMoving frame_still frame_still handler_mock) = Ok moving ∧
    region_a ∈ moving.
Proof.
  split; [reflexivity|]. split; [vm_compute; reflexivity|].
  apply (mock_strategy_reports_fitting_regions handler_mock region_a frame_still frame_still).
  - reflexivity.
  - exists report_x. vm_compute; reflexivity.
  - vm_compute; reflexivity.
  - vm_compute; reflexivity.
Defined.

(** [region_a] and [region_b], made by two calls of [ROI(0, 0, 1, 1)],
    mapped in a new handler. *)
Lemma distinct_regions_region_a_region_b :
  ROI.id region_a ≠ ROI.id region_b ∧
  (ROI.x region_a = ROI.x region_b ∧ ROI.y region_a = ROI.y region_b ∧
   ROI.width region_a = ROI.width region_b ∧ ROI.height region_a = ROI.height region_b) ∧
  let self' :=
    st (ROIHandler.MapRegionToFunc region_b report_area
          (st (ROIHandler.MapRegionToFunc region_a report_x handler_none))) in
  ROIHandler.ROIDict self' !! region_a = Some report_x ∧
  ROIHandler.ROIDict self' !! region_b = Some report_area ∧
  ROIHandler.ExecRegionFunc region_a frame_still self'
  = Run self' [ROIHandler.Call report_x region_a frame_still] (report_x region_a frame_still) ∧
  ROIHandler.ExecRegionFunc region_b frame_still self'
  = Run self' [ROIHandler.Call report_area region_b frame_still]
      (report_area region_b frame_still) ∧
  (ROIHandler.ROIDict handler_none !! region_a = None →
   ROIHandler.ROIDict handler_none !! region_b = None →
   size (ROIHandler.ROIDict self') = S (S (size (ROIHandler.ROIDict handler_none)))).
Proof.
  split; [vm_compute; discriminate|]. split; [vm_compute; auto|].
  apply (distinct_regions_have_distinct_entries
           handler_none region_a region_b report_x report_area frame_still).
  - vm_compute; discriminate.
  - vm_compute; auto.
Defined.

(** ** The functions of the demo *)

(** X17: [getRectangleCenter] rounds each half down: twice a coordinate
    of the centre is the size, or the size less 1. *)
Theorem getRectangleCenter_rounds_down (width height : Z) :
  2 * (getRectangleCenter width height).1 ≤ width ≤ 2 * (getRectangleCenter width height).1 + 1 ∧
  2 * (getRectangleCenter width height).2 ≤ height
  ≤ 2 * (getRectangleCenter width height).2 + 1.
Proof.
  unfold getRectangleCenter. simpl.
  pose proof (Z.div_mod width 2) as Hw. pose proof (Z.mod_pos_bound width 2) as Hwb.
  pose proof (Z.div_mod height 2) as Hh. pose proof (Z.mod_pos_bound height 2) as Hhb.
  lia.
Qed.

(** X18: for a region of origin and size not below 0 that fits the image,
    the offsets that [getAngleFromCenter] passes to [atan2] are within
    the image: between minus the centre of the image and the size less
    the centre, in each direction. *)
Theorem getAngleFromCenter_offsets_within_image
    {Frame : Type} `{FrameOps Frame} (region : ROI.t) (image : Frame) :
  ROIHandler.CheckRegionFits region image = true →
  0 ≤ ROI.x region → 0 ≤ ROI.y region →
  0 ≤ ROI.width region → 0 ≤ ROI.height region →
  let '(dy, dx) := getAngleFromCenter_offsets region image in
  - (height image / 2) ≤ dy ≤ height image - height image / 2 ∧
  - (width image / 2) ≤ dx ≤ width image - width image / 2.
Proof.
  unfold ROIHandler.CheckRegionFits, getAngleFromCenter_offsets, getRectangleCenter.
  destruct (ROI.y region + ROI.height region <=? height image) eqn:Eh; [|done].
  destruct (ROI.x region + ROI.width region <=? width image) eqn:Ew; [|done].
  apply Z.leb_le in Eh, Ew. intros _ Hx Hy Hw Hh.
  pose proof (Z.div_mod (ROI.width region) 2) as Hdw.
  pose proof (Z.mod_pos_bound (ROI.width region) 2) as Hbw.
  pose proof (Z.div_mod (ROI.height region) 2) as Hdh.
  pose proof (Z.mod_pos_bound (ROI.height region) 2) as Hbh.
  lia.
Qed.

(** ** The further properties on the example inputs *)

Lemma MotionDetectorByMatrix_isMoving_no_sample_frame_none :
  getNumpy_flatten (sub frame_none frame_none) = [] ∧
  MotionDetectorByMatrix_isMoving frame_none frame_none = Raise ZeroDivisionError.
Proof.
  split; [reflexivity|].
  apply (MotionDetectorByMatrix_isMoving_no_sample frame_none frame_none). reflexivity.
Defined.

(** The difference of [frame_grey10] and [frame10] is 300 samples 7. *)
Lemma MotionDetectorByMatrix_isMoving_8bit_grey10 :
  getNumpy_flatten (sub frame_grey10 frame10) = replicate 300 7 ∧
  count_black (replicate 300 7) (replicate 300 7) 0 = Ok 0 ∧
  MotionDetectorByMatrix_isMoving frame_grey10 frame10 ≠ Raise IndexError.
Proof.
  assert (getNumpy_flatten (sub frame_grey10 frame10) = replicate 300 7) as Hflat
    by (vm_compute; reflexivity).
  split; [exact Hflat|].
  pose proof (MotionDetectorByMatrix_isMoving_8bit frame_grey10 frame10) as H8.
  cbv zeta in H8. rewrite Hflat in H8.
  destruct H8 as [Hcount Hno].
  - apply Forall_replicate. lia.
  - rewrite length_replicate. lia.
  - split; [|exact Hno]. rewrite Hcount. vm_compute. reflexivity.
Defined.

Lemma MotionDetectorByMeanColor_isMoving_same_mean_still :
  meanColor frame_still = meanColor frame_still ∧
  MotionDetectorByMeanColor_isMoving frame_still frame_still = Ok false.
Proof.
  split; [reflexivity|].
  apply (MotionDetectorByMeanColor_isMoving_same_mean frame_still frame_still).
  reflexivity.
Defined.

Lemma no_strategy_reports_nothing_mapped :
  ROIHandler.MotionDetector handler_none_mapped = MotionDetector.init None ∧
  ROIHandler.ROIDict handler_none_mapped !! region_a = Some report_x ∧
  res (ROIHandler.getRegionsMoving frame_still frame_dark2 handler_none_mapped) = Ok [] ∧
  ROIHandler.ExecMovingRegionFuncs frame_still frame_dark2 handler_none_mapped
  = Run handler_none_mapped
      (out (ROIHandler.getRegionsMoving frame_still frame_dark2 handler_none_mapped))
      (Ok tt).
Proof.
  split; [reflexivity|]. split; [vm_compute; reflexivity|].
  apply (no_strategy_reports_nothing handler_none_mapped frame_still frame_dark2).
  reflexivity.
Defined.

(** In [handler_mock] the detector never raises: [getRegionsMoving]
    returns the one region that fits. *)
Lemma getRegionsMoving_returns_reported_mock :
  res (ROIHandler.getRegionsMoving frame_still frame_dark2 handler_mock) = Ok [region_a] ∧
  [region_a] = filter (fun r => reports handler_mock frame_still frame_dark2 r = true)
                      (ROIHandler.keys (ROIHandler.ROIDict handler_mock)) ∧
  ∀ r, r ∈ [region_a] ↔
       is_Some (ROIHandler.ROIDict handler_mock !! r) ∧
       fits_both frame_still frame_dark2 r = true ∧
       verdict handler_mock frame_still frame_dark2 r = Ok true.
Proof.
  assert (res (ROIHandler.getRegionsMoving frame_still frame_dark2 handler_mock)
          = Ok [region_a]) as Hres by (vm_compute; reflexivity).
  split; [exact Hres|].
  exact (proj2 (getRegionsMoving_returns_reported handler_mock frame_still frame_dark2)
           [region_a] Hres).
Defined.

Lemma getRegionsMoving_prints_unfit_mock :
  res (ROIHandler.getRegionsMoving frame_still frame_dark2 handler_mock) = Ok [region_a] ∧
  out (ROIHandler.getRegionsMoving frame_still frame_dark2 handler_mock)
  = replicate
      (length (filter (fun r => fits_both frame_still frame_dark2 r = false)
                      (ROIHandler.keys (ROIHandler.ROIDict handler_mock))))
      out_of_bounds.
Proof.
  split; [vm_compute; reflexivity|].
  apply (getRegionsMoving_prints_unfit handler_mock frame_still frame_dark2 [region_a]).
  vm_compute; reflexivity.
Defined.

(** [region_empty] fits every image of size not below 0, and its crops
    have no sample. *)
Lemma detector_exception_goes_through_matrix :
  is_Some (ROIHandler.ROIDict handler_matrix !! region_empty) ∧
  fits_both frame_still frame_dark2 region_empty = true ∧
  verdict handler_matrix frame_still frame_dark2 region_empty = Raise ZeroDivisionError ∧
  ∃ R' e',
    is_Some (ROIHandler.ROIDict handler_matrix !! R') ∧
    fits_both frame_still frame_dark2 R' = true ∧
    verdict handler_matrix frame_still frame_dark2 R' = Raise e' ∧
    res (ROIHandler.getRegionsMoving frame_still frame_dark2 handler_matrix) = Raise e' ∧
    ROIHandler.ExecMovingRegionFuncs frame_still frame_dark2 handler_matrix
    = Run handler_matrix
        (out (ROIHandler.getRegionsMoving frame_still frame_dark2 handler_matrix))
        (Raise e').
Proof.
  assert (is_Some (ROIHandler.ROIDict handler_matrix !! region_empty)) as Hmapped
    by (exists report_x; vm_compute; reflexivity).
  split; [exact Hmapped|]. split; [vm_compute; reflexivity|].
  split; [vm_compute; reflexivity|].
  apply (detector_exception_goes_through handler_matrix frame_still frame_dark2
           region_empty ZeroDivisionError Hmapped).
  - vm_compute; reflexivity.
  - vm_compute; reflexivity.
Defined.

Lemma empty_region_stops_matrix_dispatch_region_empty :
  ROIHandler.MotionDetector handler_matrix
  = MotionDetector.init (Some MotionDetectorByMatrix) ∧
  ∃ e,
    res (ROIHandler.getRegionsMoving frame_still frame_dark2 handler_matrix) = Raise e ∧
    ROIHandler.ExecMovingRegionFuncs frame_still frame_dark2 handler_matrix
    = Run handler_matrix
        (out (ROIHandler.getRegionsMoving frame_still frame_dark2 handler_matrix))
        (Raise e).
Proof.
  split; [reflexivity|].
  apply (empty_region_stops_matrix_dispatch handler_matrix frame_still frame_dark2
           region_empty).
  - reflexivity.
  - exists report_x. vm_compute; reflexivity.
  - vm_compute; reflexivity.
  - vm_compute; reflexivity.
Defined.

(** In [handler_failing] both regions are returned, [region_a] first; its
    function raises, and none is called for [region_b]. *)
Lemma raising_function_stops_dispatch_failing :
  res (ROIHandler.getRegionsMoving frame_still frame_dark2 handler_failing)
  = Ok ([] ++ region_a :: [region_b]) ∧
  ROIHandler.ExecMovingRegionFuncs frame_still frame_dark2 handler_failing
  = Run handler_failing
      [ROIHandler.Call fail_always region_a frame_dark2]
      (Raise (Exception "no angle")) ∧
  ∀ g image,
    ROIHandler.Call g region_b image
    ∉ out (ROIHandler.ExecMovingRegionFuncs frame_still frame_dark2 handler_failing).
Proof.
  assert (res (ROIHandler.getRegionsMoving frame_still frame_dark2 handler_failing)
          = Ok ([] ++ region_a :: [region_b])) as Hres by (vm_compute; reflexivity).
  split; [exact Hres|].
  destruct (raising_function_stops_dispatch handler_failing frame_still frame_dark2
              [] [region_b] region_a fail_always [] (Exception "no angle") Hres)
    as [Hexec Hnone].
  - constructor.
  - constructor.
  - vm_compute; reflexivity.
  - reflexivity.
  - split.
    + rewrite Hexec. reflexivity.
    + intros g image. apply Hnone. left.
Defined.

Lemma meancolor_same_frame_reports_nothing_still :
  ROIHandler.MotionDetector handler_meancolor
  = MotionDetector.init (Some MotionDetectorByMeanColor) ∧
  res (ROIHandler.getRegionsMoving frame_still frame_still handler_meancolor) = Ok [] ∧
  ROIHandler.ExecMovingRegionFuncs frame_still frame_still handler_meancolor
  = Run handler_meancolor
      (out (ROIHandler.getRegionsMoving frame_still frame_still handler_meancolor))
      (Ok tt).
Proof.
  split; [reflexivity|].
  apply (meancolor_same_frame_reports_nothing handler_meancolor frame_still).
  reflexivity.
Defined.

(** [region_a] in a 2x2 image: the offsets are (-1, -1). *)
Lemma getAngleFromCenter_offsets_region_a :
  ROIHandler.CheckRegionFits region_a frame_still = true ∧
  getAngleFromCenter_offsets region_a frame_still = (-1, -1) ∧
  let '(dy, dx) := getAngleFromCenter_offsets region_a frame_still in
  - (height frame_still / 2) ≤ dy ≤ height frame_still - height frame_still / 2 ∧
  - (width frame_still / 2) ≤ dx ≤ width frame_still - width frame_still / 2.
Proof.
  split; [vm_compute; reflexivity|]. split; [vm_compute; reflexivity|].
  apply (getAngleFromCenter_offsets_within_image region_a frame_still).
  - vm_compute; reflexivity.
  - vm_compute; discriminate.
  - vm_compute; discriminate.
  - vm_compute; discriminate.
  - vm_compute; discriminate.
Defined.

(** A region of 2 by 2 at (-5, -5) and a 2x2 image. *)
Lemma CheckRegionFits_accepts_region_before_origin_still :
  ROIHandler.CheckRegionFits
    {| ROI.id := 9; ROI.x := -5; ROI.y := -5; ROI.height := 2; ROI.width := 2 |}
    frame_still = true.
Proof.
  apply (CheckRegionFits_accepts_region_before_origin
           {| ROI.id := 9; ROI.x := -5; ROI.y := -5; ROI.height := 2; ROI.width := 2 |}
           frame_still);
    vm_compute; discriminate.
Defined.

